(** * Carbon-Calculator: the route lookup and the emission calculator

    A shallow embedding of [js/routes-data.js] (RoutesDB), [js/config.js]
    (the CONFIG tables) and [js/calculator.js] (Calculator), followed by the
    theorems that relate them to the written specification.

    JavaScript numbers are IEEE 754 binary64 values; they are modelled by
    Rocq's primitive [float], whose operations are the same binary64
    operations (round to nearest, ties to even).  [null] results are [None].
    Equality of floats in the statements below is Leibniz equality: the same
    binary64 datum ([+0] and [-0] are different, there is one NaN). *)

From Stdlib Require Import ZArith List String Ascii Bool Lia Floats.
From Stdlib Require Uint63.
From Stdlib Require Import Permutation Sorted.
Import ListNotations.

Set Warnings "-inexact-float".

(* ================================================================== *)
(** ** JavaScript numbers: [Number.EPSILON], [Math.round], [Math.pow] *)
(* ================================================================== *)

Module JsNumber.
Local Open Scope float_scope.

(** [Number.EPSILON] is 2^-52. *)
Definition Number_EPSILON : float := 0x1p-52.

(** [Number.isNaN] on a number. *)
Definition Number_isNaN (x : float) : bool := is_nan x.

(** The integer [floor (v + 1/2)] for the dyadic number [v = z * 2^(-k)]. *)
Definition round_half_up (z : Z) (k : positive) : Z :=
  Z.shiftr (2 * z + Z.pos (Pos.shiftl 1 (Npos k))) (Z.pos k + 1).

(** The float of an integer below 2^53 in magnitude; [s] is the sign given
    to a zero. *)
Definition of_integer (z : Z) (s : bool) : float :=
  match z with
  | Z0 => if s then neg_zero else zero
  | Zpos _ => of_uint63 (Uint63.of_Z z)
  | Zneg p => - of_uint63 (Uint63.of_Z (Zpos p))
  end.

(** [Math.round x]: the integer closest to [x], ties going towards
    +Infinity.  NaN, the infinities and the zeros are returned unchanged,
    and so is every finite number whose exponent is not negative (it is an
    integer already).  Otherwise the result is computed exactly on the
    integer mantissa; it is below 2^53 in magnitude and hence a float.  A
    result of zero keeps the sign of [x] ([Math.round(-0.2)] is [-0]). *)
Definition Math_round (x : float) : float :=
  match Prim2SF x with
  | S754_finite s m (Zneg k) =>
      of_integer (round_half_up (if s then Z.neg m else Z.pos m) k) s
  | _ => x
  end.

(** [Math.pow(10, n)] for a small natural [n]: the powers of ten that the
    calculator asks for (10^2 and 10^4) are exact floats, and so is every
    product below. *)
Fixpoint Math_pow10 (n : nat) : float :=
  match n with
  | O => 1
  | S k => 10 * Math_pow10 k
  end.
End JsNumber.

(* ================================================================== *)
(** ** JavaScript strings: code units, [trim], [toLowerCase]           *)
(* ================================================================== *)

Module JsString.
Local Open Scope N_scope.

(** A JavaScript string is a sequence of UTF-16 code units. *)
Definition jsstring := list N.

(** Decoding of a UTF-8 source literal into UTF-16 code units.  [acc] is
    the code point under construction and [need] the number of
    continuation bytes still expected. *)
Definition code_units (cp : N) : list N :=
  if cp <? 65536 then [cp]
  else let c := cp - 65536 in [55296 + c / 1024; 56320 + c mod 1024].

Fixpoint utf8_decode (bs : list N) (acc : N) (need : nat) : jsstring :=
  match bs with
  | [] => []
  | b :: bs' =>
      match need with
      | O =>
          if b <? 128 then b :: utf8_decode bs' 0 O
          else if b <? 224 then utf8_decode bs' (N.land b 31) 1%nat
          else if b <? 240 then utf8_decode bs' (N.land b 15) 2%nat
          else utf8_decode bs' (N.land b 7) 3%nat
      | S O => code_units (acc * 64 + N.land b 63) ++ utf8_decode bs' 0 O
      | S n => utf8_decode bs' (acc * 64 + N.land b 63) n
      end
  end.

(** The string denoted by a source literal. *)
Definition js (s : string) : jsstring :=
  utf8_decode (map N_of_ascii (list_ascii_of_string s)) 0 O.

(** White space and line terminators, the code units [trim] strips. *)
Definition isWhiteSpace (c : N) : bool :=
  ((9 <=? c) && (c <=? 13)) || (c =? 32) || (c =? 160) || (c =? 5760)
  || ((8192 <=? c) && (c <=? 8202)) || (c =? 8232) || (c =? 8233)
  || (c =? 8239) || (c =? 8287) || (c =? 12288) || (c =? 65279).

Fixpoint trimStart (s : jsstring) : jsstring :=
  match s with
  | [] => []
  | c :: s' => if isWhiteSpace c then trimStart s' else s
  end.

Definition trimEnd (s : jsstring) : jsstring := rev (trimStart (rev s)).

(** [String.prototype.trim]. *)
Definition trim (s : jsstring) : jsstring := trimEnd (trimStart s).

(** [String.prototype.toLowerCase] on the Basic Latin and Latin-1
    Supplement blocks: A-Z and U+00C0-U+00DE (U+00D7, the multiplication
    sign, aside) move up by 32.  Code units outside these two blocks are
    left as they are; every string of the route table lies inside them
    (lemma [routes_latin1] below), and the symmetry of the lookup is proved
    for an arbitrary lower-casing function. *)
Definition lowerCodeUnit (c : N) : N :=
  if (65 <=? c) && (c <=? 90) then c + 32
  else if (192 <=? c) && (c <=? 222) && negb (c =? 215) then c + 32
  else c.

Definition toLowerCase (s : jsstring) : jsstring := map lowerCodeUnit s.

(** Strict equality [===] of two strings. *)
Definition eqb (s t : jsstring) : bool :=
  if list_eq_dec N.eq_dec s t then true else false.
End JsString.

(* ================================================================== *)
(** ** js/routes-data.js: RoutesDB                                     *)
(* ================================================================== *)

Module RoutesDB.
Import JsString.
Local Open Scope float_scope.

Record Route := {
  origin : jsstring;
  destination : jsstring;
  distanceKm : float
}.

Definition route (o d : string) (km : float) : Route :=
  {| origin := js o; destination := js d; distanceKm := km |}.

Definition routes : list Route := [
  route "São Paulo, SP" "Rio de Janeiro, RJ" 430;
  route "São Paulo, SP" "Brasília, DF" 1015;
  route "Rio de Janeiro, RJ" "Brasília, DF" 1148;
  route "São Paulo, SP" "Campinas, SP" 95;
  route "Rio de Janeiro, RJ" "Niterói, RJ" 13;
  route "Belo Horizonte, MG" "Ouro Preto, MG" 100;
  route "São Paulo, SP" "Belo Horizonte, MG" 586;
  route "Salvador, BA" "Feira de Santana, BA" 109;
  route "Salvador, BA" "Brasília, DF" 1120;
  route "Fortaleza, CE" "Natal, RN" 534;
  route "Recife, PE" "João Pessoa, PB" 120;
  route "Recife, PE" "Salvador, BA" 800;
  route "Manaus, AM" "Porto Velho, RO" 880;
  route "Belém, PA" "São Luís, MA" 980;
  route "Curitiba, PR" "Florianópolis, SC" 300;
  route "Porto Alegre, RS" "Florianópolis, SC" 470;
  route "Curitiba, PR" "São Paulo, SP" 408;
  route "Vitória, ES" "Rio de Janeiro, RJ" 520;
  route "Goiânia, GO" "Brasília, DF" 205;
  route "Cuiabá, MT" "Campo Grande, MS" 690;
  route "Campo Grande, MS" "Goiânia, GO" 780;
  route "Manaus, AM" "Belém, PA" 1040;
  route "Teresina, PI" "Fortaleza, CE" 530;
  route "João Pessoa, PB" "Natal, RN" 190;
  route "Aracaju, SE" "Salvador, BA" 330;
  route "Maceió, AL" "Recife, PE" 250;
  route "São Paulo, SP" "Santos, SP" 72;
  route "Rio de Janeiro, RJ" "Petrópolis, RJ" 68;
  route "Belo Horizonte, MG" "Uberlândia, MG" 500;
  route "Ribeirão Preto, SP" "São Paulo, SP" 318;
  route "Campinas, SP" "São José dos Campos, SP" 100;
  route "Porto Velho, RO" "Rio Branco, AC" 507;
  route "Palmas, TO" "Goiânia, GO" 720;
  route "Salvador, BA" "Ilhéus, BA" 275;
  route "Curitiba, PR" "Porto Alegre, RS" 710
].

Section Lookup.
(** The two string methods the lookup calls, and the table it scans. *)
Variables trim toLowerCase : jsstring -> jsstring.
Variable table : list Route.

(** The [for] loop of [findDistance]: the first record that matches in
    either direction decides. *)
Fixpoint scan (rs : list Route) (o d : jsstring) : option float :=
  match rs with
  | [] => None
  | r :: rs' =>
      let rOrigin := toLowerCase (trim (origin r)) in
      let rDest := toLowerCase (trim (destination r)) in
      if (eqb rOrigin o && eqb rDest d) || (eqb rOrigin d && eqb rDest o)
      then Some (distanceKm r)
      else scan rs' o d
  end.

(** [findDistance(origin, destination)] on two strings; the empty string
    is the one falsy string. *)
Definition findDistanceIn (origin destination : jsstring) : option float :=
  match origin, destination with
  | [], _ | _, [] => None
  | _, _ =>
      let o := toLowerCase (trim origin) in
      let d := toLowerCase (trim destination) in
      scan table o d
  end.
End Lookup.

(** The lookup as shipped: over [routes]. *)
Definition findDistance : jsstring -> jsstring -> option float :=
  findDistanceIn trim toLowerCase routes.
End RoutesDB.

(* ================================================================== *)
(** ** js/config.js: the CONFIG tables                                 *)
(* ================================================================== *)

Module CONFIG.
Local Open Scope string_scope.
Local Open Scope float_scope.

(** An object literal with number values, as the list of its own
    properties in insertion order (none of the keys is an array index, so
    this is also the order of [Object.keys]). *)
Definition EMISSION_FACTORS : list (string * float) := [
  ("bicycle", 0);
  ("car", 0.12);
  ("bus", 0.089);
  ("boat", 0.96)
].

Record CarbonCredit := {
  KG_PER_CREDIT : float;
  PRICE_MIN_BRL : float;
  PRICE_MAX_BRL : float
}.

Definition CARBON_CREDIT : CarbonCredit :=
  {| KG_PER_CREDIT := 1000; PRICE_MIN_BRL := 50; PRICE_MAX_BRL := 150 |}.
End CONFIG.

(* ================================================================== *)
(** ** Property lookup on a plain object                               *)
(* ================================================================== *)

Module JsObject.
Local Open Scope string_scope.

(** What [obj[key]] yields for an object literal of numbers: an own
    property, a member inherited from [Object.prototype] (a function, or
    the prototype object for [__proto__]), or [undefined]. *)
Inductive Property :=
| Own (x : float)
| Inherited
| Undefined.

Definition Object_prototype_names : list string := [
  "constructor"; "__defineGetter__"; "__defineSetter__"; "hasOwnProperty";
  "__lookupGetter__"; "__lookupSetter__"; "isPrototypeOf";
  "propertyIsEnumerable"; "toString"; "valueOf"; "__proto__";
  "toLocaleString"
].

Fixpoint own (obj : list (string * float)) (key : string) : option float :=
  match obj with
  | [] => None
  | (k, v) :: obj' => if String.eqb k key then Some v else own obj' key
  end.

Definition get (obj : list (string * float)) (key : string) : Property :=
  match own obj key with
  | Some v => Own v
  | None =>
      if existsb (String.eqb key) Object_prototype_names
      then Inherited else Undefined
  end.

(** [Object.keys]. *)
Definition Object_keys (obj : list (string * float)) : list string :=
  map fst obj.

(** [Number(v)] for a property value: a function or an object converts
    to NaN. *)
Definition Number_of (p : Property) : float :=
  match p with
  | Own x => x
  | Inherited | Undefined => nan
  end.

(** [Array.prototype.indexOf(key) !== -1]. *)
Definition includes (keys : list string) (key : string) : bool :=
  existsb (String.eqb key) keys.
End JsObject.

(* ================================================================== *)
(** ** [Array.prototype.sort] with a comparison function               *)
(* ================================================================== *)

Module JsArray.
Local Open Scope float_scope.

Section Sort.
Context {A : Type}.
(** The comparison function returns a number; the sort looks at its
    sign only, and a NaN counts as [+0]. *)
Variable comparefn : A -> A -> float.

(** The place of [x] in a sorted prefix: before the first element it
    compares strictly below, hence after every element it ties with. *)
Fixpoint insert (x : A) (sorted : list A) : list A :=
  match sorted with
  | [] => [x]
  | y :: rest =>
      if comparefn x y <? 0 then x :: sorted else y :: insert x rest
  end.

(** The sort is stable; it is modelled as the insertion sort that takes
    the elements from left to right.  Every stable sort returns the same
    array when the comparison function is consistent. *)
Definition sort (l : list A) : list A :=
  fold_left (fun sorted x => insert x sorted) l [].
End Sort.
End JsArray.

(* ================================================================== *)
(** ** js/calculator.js: Calculator                                    *)
(* ================================================================== *)

Module Calculator.
Import JsNumber JsObject.
Local Open Scope float_scope.

Record ComparisonEntry := {
  mode : string;
  emission : option float;
  percentageVsCar : option float
}.

Record Savings := {
  savedKg : float;
  percentage : option float
}.

Record PriceEstimate := {
  min : float;
  max : float;
  average : float
}.

(** [_round(value, decimals)]. *)
Definition _round (value : float) (decimals : nat) : float :=
  let factor := Math_pow10 decimals in
  Math_round ((value + Number_EPSILON) * factor) / factor.

Section WithConfig.
(** [CONFIG.EMISSION_FACTORS] and [CONFIG.CARBON_CREDIT]; CONFIG is
    defined and both tables are objects, so the guards on their presence
    never fire. *)
Variable EMISSION_FACTORS : list (string * float).
Variable CARBON_CREDIT : CONFIG.CarbonCredit.

Definition calculateEmission (distanceKm : float) (transportMode : string)
  : option float :=
  let distance := distanceKm in
  if Number_isNaN distance || (distance <? 0) then None
  else
    match get EMISSION_FACTORS transportMode with
    | Undefined => None
    | factor =>
        let emission := distance * Number_of factor in
        Some (_round emission 2)
    end.

(** The comparison function given to [results.sort]. *)
Definition byEmission (a b : ComparisonEntry) : float :=
  match emission a, emission b with
  | None, None => 0
  | None, Some _ => 1
  | Some _, None => -1
  | Some x, Some y => x - y
  end.

(** The body of the [forEach] callback, for one mode. *)
Definition entryFor (distanceKm : float) (carEmission : option float)
  (m : string) : ComparisonEntry :=
  let emission := calculateEmission distanceKm m in
  let percentage :=
    match emission, carEmission with
    | Some e, Some c =>
        if 0 <? c then Some (_round ((e / c) * 100) 2) else None
    | _, _ => None
    end in
  {| mode := m; emission := emission; percentageVsCar := percentage |}.

Definition referenceEmission (distanceKm : float) : option float :=
  if includes (Object_keys EMISSION_FACTORS) "car"
  then calculateEmission distanceKm "car" else None.

Definition calculateAllModes (distanceKm : float) : list ComparisonEntry :=
  let modes := Object_keys EMISSION_FACTORS in
  let carEmission := referenceEmission distanceKm in
  let results := map (entryFor distanceKm carEmission) modes in
  JsArray.sort byEmission results.

Definition calculateSavings (emission baselineEmission : float)
  : option Savings :=
  let e := emission in
  let b := baselineEmission in
  if Number_isNaN e || Number_isNaN b then None
  else
    let savedKg := _round (b - e) 2 in
    let percentage :=
      if 0 <? b then Some (_round ((savedKg / b) * 100) 2) else None in
    Some {| savedKg := savedKg; percentage := percentage |}.

Definition calculateCarbonCredits (emissionKg : float) : option float :=
  let kg := emissionKg in
  if Number_isNaN kg || (kg <? 0) then None
  else
    let credits := kg / CONFIG.KG_PER_CREDIT CARBON_CREDIT in
    Some (_round credits 4).

Definition estimateCreditPrice (credits : float) : option PriceEstimate :=
  let c := credits in
  if Number_isNaN c || (c <? 0) then None
  else
    let min := c * CONFIG.PRICE_MIN_BRL CARBON_CREDIT in
    let max := c * CONFIG.PRICE_MAX_BRL CARBON_CREDIT in
    let avg := (min + max) / 2 in
    Some {| min := _round min 2;
            max := _round max 2;
            average := _round avg 2 |}.
End WithConfig.
End Calculator.

(* ================================================================== *)
(** ** js/routes-data.js: getAllCities                                 *)
(* ================================================================== *)

Module Cities.
Import JsString RoutesDB.

(** [Set.prototype.add] on a set of strings, kept as the list of its
    elements in insertion order. *)
Definition Set_add (set : list jsstring) (x : jsstring) : list jsstring :=
  if existsb (eqb x) set then set else set ++ [x].

Section Listing.
(** [a.localeCompare(b, 'pt-BR')]: the collation of the host, a number
    whose sign orders the two strings. *)
Variable localeCompare : jsstring -> jsstring -> float.
Variable table : list Route.

(** The [forEach] callback: a name is added when it is truthy, that is,
    not the empty string. *)
Definition addRoute (set : list jsstring) (r : Route) : list jsstring :=
  let set := match origin r with
             | [] => set
             | _ => Set_add set (origin r)
             end in
  match destination r with
  | [] => set
  | _ => Set_add set (destination r)
  end.

Definition getAllCitiesIn : list jsstring :=
  JsArray.sort localeCompare (fold_left addRoute table []).
End Listing.

End Cities.

(* ================================================================== *)
(** ** js/ui.js: UI                                                    *)
(* ================================================================== *)

Module UI.
Import JsString JsNumber.
Local Open Scope float_scope.

(** The replacement of one code unit by [escapeHtml]: the six characters
    of the class (ampersand, the two angle brackets, the double quote, the
    apostrophe and the backquote) become entities. *)
Definition escapeChar (c : N) : jsstring :=
  if (c =? 38)%N then js "&amp;"
  else if (c =? 60)%N then js "&lt;"
  else if (c =? 62)%N then js "&gt;"
  else if (c =? 34)%N then js "&quot;"
  else if (c =? 39)%N then js "&#39;"
  else if (c =? 96)%N then js "&#96;"
  else [c].

(** [escapeHtml(str)]; [None] stands for [null] and [undefined]. *)
Definition escapeHtml (str : option jsstring) : jsstring :=
  match str with
  | None => []
  | Some s => flat_map escapeChar s
  end.

(** [Math.max] and [Math.min] of two numbers: NaN when one of them is NaN,
    and [-0] counts as below [+0]. *)
Definition Math_max (a b : float) : float :=
  if is_nan a || is_nan b then nan
  else if a <? b then b
  else if b <? a then a
  else if get_sign a then b else a.

Definition Math_min (a b : float) : float :=
  if is_nan a || is_nan b then nan
  else if a <? b then a
  else if b <? a then b
  else if get_sign a then a else b.

(** The [reduce] of [renderComparison] and the guard that follows it: the
    largest emission among the entries that carry a number, 1 when that
    is 0. *)
Definition maxEmission (modesArray : list Calculator.ComparisonEntry)
  : float :=
  let maxEmission :=
    fold_left (fun max item =>
                 match Calculator.emission item with
                 | Some e => Math_max max e
                 | None => max
                 end) modesArray 0 in
  if maxEmission =? 0 then 1 else maxEmission.

(** The width of the bar of one entry, in percent. *)
Definition widthPct (item : Calculator.ComparisonEntry) (maxEmission : float)
  : float :=
  let emission := match Calculator.emission item with
                  | Some e => e
                  | None => 0
                  end in
  Math_min 100 (Math_round ((emission / maxEmission) * 100)).

(** The colour of the bar. *)
Definition barColor (widthPct : float) : string :=
  if 100 <? widthPct then "#ef4444"
  else if 75 <? widthPct then "#f97316"
  else if 25 <? widthPct then "#f59e0b"
  else "#10b981".

(** The state of a button that [showLoading] and [hideLoading] touch:
    [dataset.originalText] is [None] when the attribute is absent. *)
Record Button := {
  disabled : bool;
  innerHTML : jsstring;
  originalText : option jsstring
}.

(** The truth value of [dataset.originalText]: an absent attribute and the
    empty string are falsy. *)
Definition hasOriginalText (b : Button) : bool :=
  match originalText b with
  | Some (_ :: _) => true
  | _ => false
  end.

(** The markup of the spinner; code unit 34 is the double quote. *)
Definition spinner : jsstring :=
  js "<span class=" ++ [34%N] ++ js "spinner" ++ [34%N]
  ++ js "></span> Calculando...".

Definition showLoading (buttonElement : Button) : Button :=
  let saved :=
    if hasOriginalText buttonElement then originalText buttonElement
    else Some (innerHTML buttonElement) in
  {| disabled := true; innerHTML := spinner; originalText := saved |}.

Definition hideLoading (buttonElement : Button) : Button :=
  if hasOriginalText buttonElement
  then {| disabled := false;
          innerHTML := match originalText buttonElement with
                       | Some t => t
                       | None => innerHTML buttonElement
                       end;
          originalText := None |}
  else {| disabled := false;
          innerHTML := innerHTML buttonElement;
          originalText := originalText buttonElement |}.
End UI.

(* ================================================================== *)
(** ** js/config.js: the autofill of the distance field                *)
(* ================================================================== *)

Module Autofill.
Import JsString.

(** What [setupDistanceAutofill] reads and writes of the form: the values
    of the three inputs, the read-only flag of the distance input, the
    manual checkbox, and the text and colour of the helper line. *)
Record Form := {
  originValue : jsstring;
  destinationValue : jsstring;
  distanceValue : jsstring;
  distanceReadOnly : bool;
  manualChecked : bool;
  helperText : jsstring;
  helperColor : jsstring
}.

Definition setHelper (f : Form) (message color : jsstring) : Form :=
  {| originValue := originValue f;
     destinationValue := destinationValue f;
     distanceValue := distanceValue f;
     distanceReadOnly := distanceReadOnly f;
     manualChecked := manualChecked f;
     helperText := message;
     helperColor := match color with [] => [] | _ => color end |}.

Definition setDistance (f : Form) (value : jsstring) (readOnly : bool)
  : Form :=
  {| originValue := originValue f;
     destinationValue := destinationValue f;
     distanceValue := value;
     distanceReadOnly := readOnly;
     manualChecked := manualChecked f;
     helperText := helperText f;
     helperColor := helperColor f |}.

Definition clearDistance (f : Form) : Form := setDistance f [] true.

Section WithText.
(** The text of a number, as assigning it to [value] or appending it to a
    string produces it. *)
Variable Number_toString : float -> jsstring.

Definition tryAutofill (f : Form) : Form :=
  let originVal := match originValue f with
                   | [] => []
                   | v => trim v
                   end in
  let destVal := match destinationValue f with
                 | [] => []
                 | v => trim v
                 end in
  if manualChecked f then f
  else
    match originVal, destVal with
    | [], _ | _, [] =>
        setHelper (clearDistance f)
          (js "A distância será preenchida automaticamente") []
    | _, _ =>
        match RoutesDB.findDistance originVal destVal with
        | Some distance =>
            setHelper (setDistance f (Number_toString distance) true)
              (js "Distância encontrada: " ++ Number_toString distance
               ++ js " km")
              (js "var(--primary)")
        | None =>
            setHelper (clearDistance f)
              (js "Rota não encontrada. Você pode inserir a distância manualmente.")
              (js "var(--text-light)")
        end
    end.

(** The [change] listener of the manual checkbox. *)
Definition onManualChange (f : Form) : Form :=
  if manualChecked f
  then setHelper (setDistance f (distanceValue f) false)
         (js "Modo manual ativado. Insira a distância em km.")
         (js "var(--secondary)")
  else tryAutofill f.
End WithText.
End Autofill.

(* ================================================================== *)
(** ** js/app.js: the submit handler                                   *)
(* ================================================================== *)

Module App.
Import JsString.
Local Open Scope string_scope.
Local Open Scope float_scope.

Inductive Alert :=
| FillOriginAndDestination
| InvalidDistance
| SelectTransport.

Record ResultsData := {
  origin : jsstring;
  destination : jsstring;
  distance : float;
  emission : float;
  mode : string;
  savings : option Calculator.Savings
}.

Record CreditsData := {
  credits : float;
  price : Calculator.PriceEstimate
}.

Record Rendered := {
  resultsData : ResultsData;
  comparisonArray : list Calculator.ComparisonEntry;
  creditsData : CreditsData
}.

(** What a submission ends in: an alert of the validation, the alert of
    the [catch] block, or the three data objects handed to the renderers. *)
Inductive Outcome :=
| Rejected (a : Alert)
| Failed
| Shown (r : Rendered).

(** [credits || 0]: [null], NaN and the two zeros are falsy. *)
Definition orZero (credits : option float) : float :=
  match credits with
  | None => 0
  | Some c => if is_nan c || (c =? 0) then 0 else c
  end.

(** [priceEstimate || { min: 0, max: 0, average: 0 }]. *)
Definition orNoPrice (p : option Calculator.PriceEstimate)
  : Calculator.PriceEstimate :=
  match p with
  | Some p => p
  | None => {| Calculator.min := 0; Calculator.max := 0;
               Calculator.average := 0 |}
  end.

(** The body of the [try] block, with the transport mode chosen. *)
Definition calculate (origin destination : jsstring) (distance : float)
  (selectedTransport : string) : Outcome :=
  match Calculator.calculateEmission CONFIG.EMISSION_FACTORS distance
          selectedTransport with
  | None => Failed
  | Some emission =>
      let carEmission :=
        Calculator.calculateEmission CONFIG.EMISSION_FACTORS distance "car" in
      let savings :=
        match carEmission with
        | Some c => Calculator.calculateSavings emission c
        | None => None
        end in
      let comparisonArray :=
        Calculator.calculateAllModes CONFIG.EMISSION_FACTORS distance in
      let credits :=
        Calculator.calculateCarbonCredits CONFIG.CARBON_CREDIT emission in
      let priceEstimate :=
        match credits with
        | Some c => Calculator.estimateCreditPrice CONFIG.CARBON_CREDIT c
        | None => None
        end in
      Shown {| resultsData :=
                 {| origin := origin; destination := destination;
                    distance := distance; emission := emission;
                    mode := selectedTransport; savings := savings |};
               comparisonArray := comparisonArray;
               creditsData :=
                 {| credits := orZero credits;
                    price := orNoPrice priceEstimate |} |}
  end.

(** [onFormSubmit] on the values of the form: the two names as typed, the
    distance as [parseFloat] read it, and the value of the checked radio
    button, [None] when no button is checked. *)
Definition onFormSubmit (originValue destinationValue : jsstring)
  (distance : float) (selectedTransport : option string) : Outcome :=
  let origin := trim originValue in
  let destination := trim destinationValue in
  match origin, destination with
  | [], _ | _, [] => Rejected FillOriginAndDestination
  | _, _ =>
      if is_nan distance || (distance <=? 0) then Rejected InvalidDistance
      else
        match selectedTransport with
        | None | Some EmptyString => Rejected SelectTransport
        | Some transport => calculate origin destination distance transport
        end
  end.
End App.

(* ================================================================== *)
(** ** Classes of binary64 values                                      *)
(* ================================================================== *)

Module Binary64.
Local Open Scope float_scope.

(** The shape of a rounded result: it carries the sign asked for, and it is
    not NaN. *)
Inductive signed (s : bool) : spec_float -> Prop :=
| signed_zero : signed s (S754_zero s)
| signed_infinity : signed s (S754_infinity s)
| signed_finite m e : signed s (S754_finite s m e).

Inductive signed_nonzero (s : bool) : spec_float -> Prop :=
| nz_infinity : signed_nonzero s (S754_infinity s)
| nz_finite m e : signed_nonzero s (S754_finite s m e).

(** The signed mantissa of a finite float, brought to the exponent [ez]. *)
Definition aligned (s : bool) (m : positive) (e ez : Z) : Z :=
  cond_Zopp s (Z.pos (fst (shl_align m e ez))).

Definition SFnonneg (f : spec_float) : bool :=
  match f with
  | S754_zero _ => true
  | S754_infinity s | S754_finite s _ _ => negb s
  | S754_nan => false
  end.

Definition SFpositive (f : spec_float) : bool :=
  match f with
  | S754_infinity s | S754_finite s _ _ => negb s
  | _ => false
  end.

Definition SFfinite (f : spec_float) : bool :=
  match f with
  | S754_zero _ | S754_finite _ _ _ => true
  | _ => false
  end.

(** A number that is zero or above: not NaN, not negative. *)
Definition nonneg (x : float) : Prop := (0 <=? x) = true.

(** A number above zero other than +Infinity. *)
Definition positive_finite (x : float) : Prop :=
  (0 <? x) = true /\ (x <? infinity) = true.
End Binary64.

(* ================================================================== *)
(** ** Notions of the written specification                            *)
(* ================================================================== *)

Module Spec.
Import Calculator.
Local Open Scope float_scope.

(** The price estimate as the specification words it: round the two
    bounds first, then average the rounded bounds. *)
Definition estimatePrice_roundThenAverage
  (policy : CONFIG.CarbonCredit) (credits : float) : PriceEstimate :=
  let lo := _round (credits * CONFIG.PRICE_MIN_BRL policy) 2 in
  let hi := _round (credits * CONFIG.PRICE_MAX_BRL policy) 2 in
  {| min := lo; max := hi; average := _round ((lo + hi) / 2) 2 |}.

(** "Ascending by emission, invalid entries last" for two neighbours. *)
Definition ascending (a b : ComparisonEntry) : Prop :=
  match emission a, emission b with
  | Some x, Some y => (x <=? y) = true
  | Some _, None => True
  | None, None => True
  | None, Some _ => False
  end.

Definition isInvalid (a : ComparisonEntry) : bool :=
  match emission a with
  | None => true
  | Some _ => false
  end.

(** An entry whose emission can be ordered: [null], or a number that is
    zero or above (so not NaN). *)
Definition orderable (a : ComparisonEntry) : Prop :=
  match emission a with
  | None => True
  | Some e => Binary64.nonneg e
  end.

(** A factor table as the data model describes it: every factor is a
    non-negative real number. *)
Definition realFactors (factors : list (string * float)) : Prop :=
  Forall (fun kv => Binary64.nonneg (snd kv) /\ (snd kv <? infinity) = true)
         factors.

(** Equality of two floats as a boolean that tells [+0] from [-0] and
    equates NaN with itself. *)
Definition same (x y : float) : bool := PrimFloat.Leibniz.eqb x y.
End Spec.

(* ================================================================== *)
(** ** Notions used to state further properties                        *)
(* ================================================================== *)

Module Props.
Import JsString.

(** The test of the loop body of [findDistance], as a proposition: the
    two names of the record, trimmed and lower-cased, are [o] and [d] in one
    order or the other. *)
Definition matching (trim toLowerCase : jsstring -> jsstring)
  (r : RoutesDB.Route) (o d : jsstring) : Prop :=
  (toLowerCase (trim (RoutesDB.origin r)) = o
   /\ toLowerCase (trim (RoutesDB.destination r)) = d)
  \/ (toLowerCase (trim (RoutesDB.origin r)) = d
      /\ toLowerCase (trim (RoutesDB.destination r)) = o).

(** A string of white space only (the empty string included). *)
Definition blank (s : jsstring) : Prop :=
  Forall (fun c => isWhiteSpace c = true) s.

(** A string of the Basic Latin and Latin-1 Supplement blocks. *)
Definition latin1 (s : jsstring) : Prop := Forall (fun c => (c < 256)%N) s.

(** An entry whose emission is [null] or a finite number at or above
    zero. *)
Definition finiteEmission (en : Calculator.ComparisonEntry) : Prop :=
  match Calculator.emission en with
  | None => True
  | Some e => (0 <=? e)%float = true /\ (e <? infinity)%float = true
  end.
End Props.

(* ================================================================== *)
(** * Theorems                                                         *)
(* ================================================================== *)

Import JsNumber JsObject.
Import Binary64 Spec.
Local Open Scope string_scope.
Local Open Scope list_scope.
Local Open Scope float_scope.

Abbreviation EF := CONFIG.EMISSION_FACTORS (only parsing).
Abbreviation CC := CONFIG.CARBON_CREDIT (only parsing).

(** ** Binary64 arithmetic: digits, shifts and rounding *)

Section Binary64Facts.
Local Open Scope Z_scope.

Lemma digits2_pos_size p : digits2_pos p = Pos.size p.
Proof. induction p; simpl; congruence. Qed.

Lemma digits2_pos_log2 p : Z.pos (digits2_pos p) = Z.log2 (Z.pos p) + 1.
Proof.
  rewrite digits2_pos_size. destruct p; simpl; try reflexivity; lia.
Qed.

Lemma digits2_pos_bounds p :
  2 ^ (Z.pos (digits2_pos p) - 1) <= Z.pos p < 2 ^ Z.pos (digits2_pos p).
Proof.
  rewrite digits2_pos_log2.
  replace (Z.log2 (Z.pos p) + 1 - 1) with (Z.log2 (Z.pos p)) by lia.
  pose proof (Z.log2_spec (Z.pos p) eq_refl) as H.
  now rewrite <- Z.add_1_r in H.
Qed.

Lemma pow2_xO p : 2 ^ Z.pos p~0 = 2 ^ Z.pos p * 2 ^ Z.pos p.
Proof. rewrite <- Z.pow_add_r by lia. f_equal. lia. Qed.

Lemma pow2_xI p : 2 ^ Z.pos p~1 = 2 * (2 ^ Z.pos p * 2 ^ Z.pos p).
Proof.
  rewrite <- Z.pow_add_r, <- Z.pow_succ_r by lia. f_equal. lia.
Qed.

Lemma shr_1_m r : 0 <= shr_m r -> shr_m (shr_1 r) = shr_m r / 2.
Proof.
  destruct r as [m b s]. simpl. intros Hm.
  destruct m as [|p|p]; [reflexivity| |lia].
  destruct p; simpl shr_m.
  - rewrite Pos2Z.inj_xI. apply Z.div_unique with 1; lia.
  - rewrite Pos2Z.inj_xO. apply Z.div_unique with 0; lia.
  - reflexivity.
Qed.

Lemma iter_shr_1_m p : forall r,
  0 <= shr_m r -> shr_m (iter_pos shr_1 p r) = shr_m r / 2 ^ Z.pos p.
Proof.
  assert (P2 : forall q, 0 < 2 ^ Z.pos q) by (intros; apply Z.pow_pos_nonneg; lia).
  induction p as [p IH|p IH|]; intros r Hr; simpl iter_pos.
  - assert (H1 : 0 <= shr_m (shr_1 r))
      by (rewrite shr_1_m by assumption; apply Z.div_pos; lia).
    assert (H2 : 0 <= shr_m (iter_pos shr_1 p (shr_1 r)))
      by (rewrite IH by assumption; apply Z.div_pos; auto).
    rewrite IH, IH, shr_1_m by assumption.
    pose proof (P2 p).
    rewrite !Z.div_div by lia. now rewrite pow2_xI, !Z.mul_assoc.
  - assert (H2 : 0 <= shr_m (iter_pos shr_1 p r))
      by (rewrite IH by assumption; apply Z.div_pos; auto).
    rewrite IH, IH by assumption.
    pose proof (P2 p).
    rewrite !Z.div_div by lia. now rewrite pow2_xO.
  - rewrite shr_1_m by assumption. reflexivity.
Qed.

Lemma shr_m_spec r e n :
  0 <= shr_m r ->
  shr_m (fst (shr r e n)) = shr_m r / 2 ^ Z.max 0 n
  /\ snd (shr r e n) = e + Z.max 0 n.
Proof.
  intros Hr. destruct n as [|p|p]; simpl.
  - now rewrite Z.div_1_r, Z.add_0_r.
  - rewrite iter_shr_1_m by assumption. split; reflexivity.
  - now rewrite Z.div_1_r, Z.add_0_r.
Qed.

Lemma shr_record_of_loc_m m l : shr_m (shr_record_of_loc m l) = m.
Proof. destruct l as [|[]]; reflexivity. Qed.

Lemma Zdigits2_nonneg m : 0 <= Zdigits2 m.
Proof. destruct m; simpl; lia. Qed.

Lemma Zdigits2_bounds m : 0 < m -> 2 ^ (Zdigits2 m - 1) <= m < 2 ^ Zdigits2 m.
Proof. destruct m; try lia. intros _. apply digits2_pos_bounds. Qed.

Local Abbreviation fexp := (SpecFloat.fexp prec emax).

(** The first step of rounding: truncation to the target exponent. *)
Lemma shr_fexp_spec m e l :
  0 <= m ->
  let n := Z.max 0 (fexp (Zdigits2 m + e) - e) in
  shr_m (fst (shr_fexp prec emax m e l)) = m / 2 ^ n
  /\ snd (shr_fexp prec emax m e l) = e + n.
Proof.
  intros Hm n. unfold shr_fexp.
  pose proof (shr_m_spec (shr_record_of_loc m l) e (fexp (Zdigits2 m + e) - e)) as H.
  rewrite shr_record_of_loc_m in H. now apply H.
Qed.

Lemma shr_fexp_pos m e l :
  0 < m -> emin <= e ->
  0 < shr_m (fst (shr_fexp prec emax m e l))
  /\ emin <= snd (shr_fexp prec emax m e l).
Proof.
  intros Hm He.
  destruct (shr_fexp_spec m e l) as [H1 H2]; [lia|].
  rewrite H1, H2. clear H1 H2. split; [|lia].
  pose proof (Zdigits2_bounds m Hm) as [Hlo _].
  assert (Hd : 1 <= Zdigits2 m) by (destruct m; simpl; lia).
  pose proof (eq_refl : prec = 53) as Hprec.
  apply Z.div_str_pos. split; [apply Z.pow_pos_nonneg; lia|].
  eapply Z.le_trans; [|exact Hlo].
  apply Z.pow_le_mono_r; [lia|]. unfold SpecFloat.fexp. lia.
Qed.

Lemma round_nearest_even_ge m l : m <= round_nearest_even m l.
Proof. destruct l as [|[]]; simpl; try lia. destruct (Z.even m); lia. Qed.

Lemma binary_round_aux_signed s m e l :
  0 <= m -> signed s (binary_round_aux prec emax s m e l).
Proof.
  intros Hm. unfold binary_round_aux.
  destruct (shr_fexp_spec m e l Hm) as [H1 _].
  destruct (shr_fexp prec emax m e l) as [r1 e1]. simpl in H1.
  set (m2 := round_nearest_even (shr_m r1) (loc_of_shr_record r1)).
  assert (Hm2 : 0 <= m2).
  { pose proof (round_nearest_even_ge (shr_m r1) (loc_of_shr_record r1)).
    assert (0 <= shr_m r1) by (rewrite H1; apply Z.div_pos; [lia|apply Z.pow_pos_nonneg; lia]).
    unfold m2. lia. }
  destruct (shr_fexp_spec m2 e1 loc_Exact Hm2) as [H3 _].
  destruct (shr_fexp prec emax m2 e1 loc_Exact) as [r2 e2]. simpl in H3.
  assert (0 <= shr_m r2) by (rewrite H3; apply Z.div_pos; [lia|apply Z.pow_pos_nonneg; lia]).
  destruct (shr_m r2); try lia; [constructor|].
  destruct (e2 <=? emax - prec); constructor.
Qed.

Lemma binary_round_aux_nonzero s m e l :
  0 < m -> emin <= e -> signed_nonzero s (binary_round_aux prec emax s m e l).
Proof.
  intros Hm He. unfold binary_round_aux.
  destruct (shr_fexp_pos m e l Hm He) as [H1 H2].
  destruct (shr_fexp prec emax m e l) as [r1 e1]. simpl in H1, H2.
  set (m2 := round_nearest_even (shr_m r1) (loc_of_shr_record r1)).
  assert (Hm2 : 0 < m2).
  { pose proof (round_nearest_even_ge (shr_m r1) (loc_of_shr_record r1)).
    unfold m2. lia. }
  destruct (shr_fexp_pos m2 e1 loc_Exact Hm2 H2) as [H3 _].
  destruct (shr_fexp prec emax m2 e1 loc_Exact) as [r2 e2]. simpl in H3.
  destruct (shr_m r2); try lia.
  destruct (e2 <=? emax - prec); constructor.
Qed.

(** ** Valid finite floats *)

Lemma valid_finite_bounds s m e :
  valid_binary (S754_finite s m e) = true ->
  emin <= e /\ Z.pos (digits2_pos m) <= prec
  /\ (emin < e -> Z.pos (digits2_pos m) = prec).
Proof.
  simpl. unfold bounded, canonical_mantissa, SpecFloat.fexp.
  intros H. apply andb_true_iff in H. destruct H as [H _].
  apply Z.eqb_eq in H. lia.
Qed.

Lemma shl_align_spec m e e' :
  e' <= e -> Z.pos (fst (shl_align m e e')) = Z.pos m * 2 ^ (e - e').
Proof.
  intros H. unfold shl_align.
  destruct (e' - e) as [|p|p] eqn:E; try lia.
  - replace (e - e') with 0 by lia. simpl. lia.
  - replace (e - e') with (Z.pos p) by lia. simpl fst.
    rewrite (Pos.iter_swap_gen _ _ Z.pos xO (Z.mul 2)) by reflexivity.
    change (Pos.iter (Z.mul 2) (Z.pos m) p) with (Z.shiftl (Z.pos m) (Z.pos p)).
    apply Z.shiftl_mul_pow2. lia.
Qed.

Lemma shl_align_exp m e e' :
  snd (shl_align m e e') = Z.min e e'.
Proof.
  unfold shl_align. destruct (e' - e) as [|p|p] eqn:E; simpl; lia.
Qed.

(** Two valid finite floats of the same sign are ordered as their exponents
    are, when these differ. *)
Lemma valid_lt_exponent s1 m1 e1 s2 m2 e2 :
  valid_binary (S754_finite s1 m1 e1) = true ->
  valid_binary (S754_finite s2 m2 e2) = true ->
  e1 < e2 -> Z.pos m1 < Z.pos m2 * 2 ^ (e2 - e1).
Proof.
  intros V1 V2 H.
  destruct (valid_finite_bounds _ _ _ V1) as [A1 [B1 _]].
  destruct (valid_finite_bounds _ _ _ V2) as [A2 [_ C2]].
  pose proof (digits2_pos_bounds m1) as [_ U1].
  pose proof (digits2_pos_bounds m2) as [L2 _].
  rewrite C2 in L2 by lia.
  assert (Z.pos m1 < 2 ^ prec).
  { eapply Z.lt_le_trans; [exact U1|]. apply Z.pow_le_mono_r; lia. }
  assert (2 ^ 1 <= 2 ^ (e2 - e1)) by (apply Z.pow_le_mono_r; lia).
  change (2 ^ 1) with 2 in *.
  change (2 ^ (prec - 1)) with 4503599627370496 in L2.
  change (2 ^ prec) with 9007199254740992 in *.
  nia.
Qed.

(** ** Comparison of valid floats through their aligned mantissas *)

Lemma SFltb_finite s1 m1 e1 s2 m2 e2 :
  valid_binary (S754_finite s1 m1 e1) = true ->
  valid_binary (S754_finite s2 m2 e2) = true ->
  SFltb (S754_finite s1 m1 e1) (S754_finite s2 m2 e2)
  = (aligned s1 m1 e1 (Z.min e1 e2) <? aligned s2 m2 e2 (Z.min e1 e2)).
Proof.
  intros V1 V2. unfold aligned.
  rewrite !shl_align_spec by lia.
  pose proof (valid_lt_exponent _ _ _ _ _ _ V1 V2) as H12.
  pose proof (valid_lt_exponent _ _ _ _ _ _ V2 V1) as H21.
  set (a1 := Z.pos m1 * 2 ^ (e1 - Z.min e1 e2)).
  set (a2 := Z.pos m2 * 2 ^ (e2 - Z.min e1 e2)).
  assert (Hlt : e1 < e2 -> 0 < a1 < a2).
  { intros E. unfold a1, a2. rewrite Z.min_l, Z.sub_diag by lia.
    specialize (H12 E). simpl (2 ^ 0). lia. }
  assert (Hgt : e2 < e1 -> 0 < a2 < a1).
  { intros E. unfold a1, a2. rewrite Z.min_r, Z.sub_diag by lia.
    specialize (H21 E). simpl (2 ^ 0). lia. }
  assert (Heq : e1 = e2 -> a1 = Z.pos m1 /\ a2 = Z.pos m2).
  { intros E. unfold a1, a2. subst e2.
    rewrite Z.min_id, Z.sub_diag. simpl (2 ^ 0). lia. }
  clearbody a1 a2. clear H12 H21.
  unfold SFltb, SFcompare, cond_Zopp.
  rewrite Pos.compare_cont_spec. unfold Pos.switch_Eq.
  destruct (Z.compare_spec e1 e2) as [E|E|E].
  - destruct (Heq E) as [-> ->].
    destruct s1, s2, (Pos.compare_spec m1 m2); cbn [CompOpp];
      symmetry; first [apply Z.ltb_lt | apply Z.ltb_ge]; lia.
  - specialize (Hlt E).
    destruct s1, s2; symmetry;
      first [apply Z.ltb_lt | apply Z.ltb_ge]; lia.
  - specialize (Hgt E).
    destruct s1, s2; symmetry;
      first [apply Z.ltb_lt | apply Z.ltb_ge]; lia.
Qed.

(** ** Rounding an integer mantissa *)

Lemma binary_round_signed s m e :
  signed s (binary_round prec emax s m e).
Proof.
  unfold binary_round.
  destruct (shl_align m e _) as [mz ez].
  apply binary_round_aux_signed. lia.
Qed.

Lemma binary_round_nonzero s m e :
  emin <= e -> signed_nonzero s (binary_round prec emax s m e).
Proof.
  intros He. unfold binary_round.
  pose proof (shl_align_exp m e (fexp (Z.pos (digits2_pos m) + e))) as H.
  destruct (shl_align m e _) as [mz ez]. simpl in H.
  apply binary_round_aux_nonzero; [lia|].
  subst ez. unfold SpecFloat.fexp. lia.
Qed.

Lemma binary_normalize_ltb_zero z e :
  emin <= e ->
  SFltb (binary_normalize prec emax z e false) (S754_zero false) = (z <? 0).
Proof.
  intros He. destruct z as [|p|p]; simpl binary_normalize.
  - reflexivity.
  - destruct (binary_round_signed false p e); reflexivity.
  - destruct (binary_round_nonzero true p e He); reflexivity.
Qed.

(** ** The sign of a difference *)

Lemma SFsub_ltb_zero x y :
  valid_binary x = true -> valid_binary y = true ->
  SFltb (SF64sub x y) (S754_zero false) = SFltb x y.
Proof.
  intros Vx Vy.
  destruct x as [sx|sx| |sx mx ex], y as [sy|sy| |sy my ey];
    try reflexivity;
    try (destruct sx; reflexivity);
    try (destruct sy; reflexivity);
    try (destruct sx, sy; reflexivity).
  unfold SF64sub, SFsub.
  destruct (valid_finite_bounds _ _ _ Vx) as [Ax _].
  destruct (valid_finite_bounds _ _ _ Vy) as [Ay _].
  rewrite binary_normalize_ltb_zero by lia.
  rewrite (SFltb_finite _ _ _ _ _ _ Vx Vy). unfold aligned.
  set (a := cond_Zopp sx _). set (b := cond_Zopp sy _).
  destruct (Z.ltb_spec (a - b) 0), (Z.ltb_spec a b); try reflexivity; lia.
Qed.

Local Open Scope float_scope.

(** The sign of a difference is the order of its two terms. *)
Theorem sub_ltb_zero x y : (x - y <? 0) = (x <? y).
Proof.
  rewrite !ltb_spec, sub_spec.
  change (Prim2SF 0) with (S754_zero false).
  apply SFsub_ltb_zero; apply Prim2SF_valid.
Qed.

(** ** Non-negative floats *)

Lemma leb_zero_spec x : (0 <=? x) = SFnonneg (Prim2SF x).
Proof.
  rewrite leb_spec. change (Prim2SF 0) with (S754_zero false).
  destruct (Prim2SF x) as [s|s| |s m e]; try destruct s; reflexivity.
Qed.

Lemma ltb_zero_spec x : (0 <? x) = SFpositive (Prim2SF x).
Proof.
  rewrite ltb_spec. change (Prim2SF 0) with (S754_zero false).
  destruct (Prim2SF x) as [s|s| |s m e]; try destruct s; reflexivity.
Qed.

Lemma ltb_infinity_spec x :
  (0 <=? x) = true -> (x <? infinity) = SFfinite (Prim2SF x).
Proof.
  rewrite leb_zero_spec, ltb_spec.
  change (Prim2SF infinity) with (S754_infinity false).
  destruct (Prim2SF x) as [s|s| |s m e]; try destruct s;
    try reflexivity; discriminate.
Qed.

Lemma signed_nonneg f : signed false f -> SFnonneg f = true.
Proof. intros []; reflexivity. Qed.

Lemma binary_normalize_nonneg z e :
  (0 <= z)%Z -> SFnonneg (binary_normalize prec emax z e false) = true.
Proof.
  intros Hz. destruct z as [|p|p]; try lia; simpl; [reflexivity|].
  apply signed_nonneg, binary_round_signed.
Qed.

Lemma SFmul_nonneg x y :
  SFnonneg x = true -> SFnonneg y = true ->
  SFfinite x = true \/ SFpositive y = true ->
  SFfinite y = true \/ SFpositive x = true ->
  SFnonneg (SF64mul x y) = true.
Proof.
  destruct x as [sx|sx| |sx mx ex], y as [sy|sy| |sy my ey];
    simpl; intros Hx Hy H1 H2; try discriminate;
    try (destruct H1; discriminate); try (destruct H2; discriminate);
    try reflexivity;
    try (apply negb_true_iff in Hx; subst sx);
    try (apply negb_true_iff in Hy; subst sy);
    try reflexivity.
  apply signed_nonneg, binary_round_aux_signed. lia.
Qed.

Lemma SFadd_nonneg x y :
  SFnonneg x = true -> SFnonneg y = true ->
  SFnonneg (SF64add x y) = true.
Proof.
  destruct x as [sx|sx| |sx mx ex], y as [sy|sy| |sy my ey];
    simpl; intros Hx Hy; try discriminate;
    try (apply negb_true_iff in Hx; subst sx);
    try (apply negb_true_iff in Hy; subst sy);
    try reflexivity;
    try (destruct sx; reflexivity); try (destruct sy; reflexivity);
    try (destruct sx, sy; reflexivity).
  apply binary_normalize_nonneg. simpl. lia.
Qed.

Lemma SFdiv_core_binary_nonneg m1 e1 m2 e2 :
  (0 <= fst (fst (SFdiv_core_binary prec emax (Z.pos m1) e1 (Z.pos m2) e2)))%Z.
Proof.
  unfold SFdiv_core_binary.
  set (m' := match _ with Z0 => Z.pos m1 | Z.pos _ => _ | Z.neg _ => 0%Z end).
  assert (Hm' : (0 <= m')%Z).
  { unfold m'. destruct (_ - _ - _)%Z; try lia.
    rewrite Z.shiftl_mul_pow2 by lia.
    apply Z.mul_nonneg_nonneg; [lia|apply Z.pow_nonneg; lia]. }
  pose proof (Z_div_mod m' (Z.pos m2) eq_refl) as H.
  destruct (Z.div_eucl m' (Z.pos m2)) as [q r]. simpl. nia.
Qed.

Lemma SFdiv_nonneg x y :
  SFnonneg x = true -> SFpositive y = true -> SFfinite y = true ->
  SFnonneg (SF64div x y) = true.
Proof.
  destruct x as [sx|sx| |sx mx ex], y as [sy|sy| |sy my ey];
    simpl; intros Hx Hy Hf; try discriminate;
    try (apply negb_true_iff in Hx; subst sx);
    try (apply negb_true_iff in Hy; subst sy);
    try reflexivity.
  pose proof (SFdiv_core_binary_nonneg mx ex my ey) as H.
  destruct (SFdiv_core_binary prec emax (Z.pos mx) ex (Z.pos my) ey)
    as [[mz ez] lz].
  apply signed_nonneg, binary_round_aux_signed. exact H.
Qed.

Lemma positive_finite_spec c :
  positive_finite c ->
  SFpositive (Prim2SF c) = true /\ SFfinite (Prim2SF c) = true.
Proof.
  intros [H1 H2]. rewrite ltb_zero_spec in H1. split; [assumption|].
  rewrite ltb_infinity_spec in H2; [assumption|].
  rewrite leb_zero_spec. destruct (Prim2SF c) as [s|s| |s m e]; auto.
Qed.

Lemma mul_nonneg x c : nonneg x -> positive_finite c -> nonneg (x * c).
Proof.
  unfold nonneg. intros Hx Hc.
  destruct (positive_finite_spec c Hc) as [H1 H2].
  rewrite leb_zero_spec in *. rewrite mul_spec.
  apply SFmul_nonneg; auto.
  destruct (Prim2SF c) as [s|s| |s m e]; auto.
Qed.

Lemma mul_nonneg_finite x y :
  nonneg x -> (x <? infinity) = true ->
  nonneg y -> (y <? infinity) = true -> nonneg (x * y).
Proof.
  unfold nonneg. intros Hx Fx Hy Fy.
  rewrite ltb_infinity_spec in Fx, Fy by assumption.
  rewrite leb_zero_spec in *. rewrite mul_spec.
  apply SFmul_nonneg; auto.
Qed.

Lemma add_nonneg x y : nonneg x -> nonneg y -> nonneg (x + y).
Proof.
  unfold nonneg. rewrite !leb_zero_spec, add_spec. apply SFadd_nonneg.
Qed.

Lemma div_nonneg x c : nonneg x -> positive_finite c -> nonneg (x / c).
Proof.
  unfold nonneg. intros Hx Hc.
  destruct (positive_finite_spec c Hc) as [H1 H2].
  rewrite leb_zero_spec in *. rewrite div_spec.
  now apply SFdiv_nonneg.
Qed.

(** ** Order facts *)

Lemma SFcompare_nonneg x y :
  SFnonneg x = true -> SFnonneg y = true -> SFcompare x y <> None.
Proof.
  destruct x as [sx|sx| |sx mx ex], y as [sy|sy| |sy my ey];
    simpl; intros; discriminate.
Qed.

Lemma ltb_leb x y : (x <? y) = true -> (x <=? y) = true.
Proof.
  rewrite ltb_spec, leb_spec. unfold SFltb, SFleb.
  destruct (SFcompare _ _) as [[]|]; auto.
Qed.

Lemma SFcompare_antisym x y :
  SFcompare y x = option_map CompOpp (SFcompare x y).
Proof.
  destruct x as [sx|sx| |sx mx ex], y as [sy|sy| |sy my ey]; simpl;
    try reflexivity; try (destruct sx; reflexivity);
    try (destruct sy; reflexivity); try (destruct sx, sy; reflexivity).
  destruct sx, sy; simpl; try reflexivity;
    rewrite (Z.compare_antisym ey ex);
    destruct (ey ?= ex)%Z; simpl; try reflexivity;
    rewrite !Pos.compare_cont_spec, (Pos.compare_antisym my mx);
    destruct (my ?= mx)%positive; reflexivity.
Qed.

Lemma ltb_false_leb x y :
  nonneg x -> nonneg y -> (x <? y) = false -> (y <=? x) = true.
Proof.
  unfold nonneg. rewrite !leb_zero_spec, ltb_spec, leb_spec.
  intros Hx Hy. pose proof (SFcompare_nonneg _ _ Hx Hy) as Hc.
  unfold SFltb, SFleb. rewrite (SFcompare_antisym (Prim2SF x)).
  destruct (SFcompare _ _) as [[]|]; simpl; congruence.
Qed.

Lemma nonneg_not_neg x : nonneg x -> (x <? 0) = false.
Proof.
  unfold nonneg. rewrite leb_zero_spec, ltb_spec.
  change (Prim2SF 0) with (S754_zero false).
  destruct (Prim2SF x) as [s|s| |s m e]; try destruct s;
    try reflexivity; discriminate.
Qed.

(** ** NaN and the class of a distance *)

Lemma SFcompare_refl x : x <> S754_nan -> SFcompare x x = Some Eq.
Proof.
  destruct x as [s|s| |s m e]; simpl; intros H; try congruence;
    destruct s; try reflexivity;
    rewrite Z.compare_refl, Pos.compare_cont_refl; reflexivity.
Qed.

Lemma is_nan_spec x :
  is_nan x = match Prim2SF x with S754_nan => true | _ => false end.
Proof.
  unfold is_nan. rewrite eqb_spec. unfold SFeqb.
  destruct (Prim2SF x) as [s|s| |s m e] eqn:E; try reflexivity;
    rewrite SFcompare_refl by discriminate; reflexivity.
Qed.

Lemma Prim2SF_infinity x : Prim2SF x = S754_infinity false -> x = infinity.
Proof.
  intros H. rewrite <- (SF2Prim_Prim2SF x), H. reflexivity.
Qed.

Lemma accepted_distance d :
  is_nan d = false -> (d <? 0) = false -> d <> infinity ->
  nonneg d /\ (d <? infinity) = true.
Proof.
  intros Hnan Hneg Hinf. rewrite is_nan_spec in Hnan.
  assert (H : nonneg d).
  { unfold nonneg. rewrite leb_zero_spec. rewrite ltb_spec in Hneg.
    change (Prim2SF 0) with (S754_zero false) in Hneg.
    destruct (Prim2SF d) as [s|s| |s m e]; try destruct s;
      try reflexivity; discriminate. }
  split; [assumption|]. rewrite ltb_infinity_spec by assumption.
  destruct (Prim2SF d) as [s|s| |s m e] eqn:E; try reflexivity;
    try discriminate.
  unfold nonneg in H. rewrite leb_zero_spec, E in H.
  destruct s; [discriminate|]. now apply Prim2SF_infinity in E.
Qed.

(** ** Exact quotients and products *)

Lemma SFdiv_core_binary_self m e :
  SFdiv_core_binary prec emax (Z.pos m) e (Z.pos m) e
  = (9007199254740992, -53, loc_Exact)%Z.
Proof.
  unfold SFdiv_core_binary. rewrite !Z.sub_diag.
  change (Z.min (fexp 0) 0) with (-53)%Z.
  change (0 - -53)%Z with 53%Z. cbv iota.
  rewrite Z.shiftl_mul_pow2 by lia.
  change (2 ^ 53)%Z with 9007199254740992%Z.
  pose proof (Z_div_mod (Z.pos m * 9007199254740992) (Z.pos m) eq_refl) as H.
  destruct (Z.div_eucl _ _) as [q r]. destruct H as [H1 H2].
  assert (q = 9007199254740992%Z) by nia. subst q.
  assert (r = 0%Z) by lia. subst r.
  unfold new_location, new_location_even, new_location_odd.
  destruct (Z.even (Z.pos m)); reflexivity.
Qed.

Lemma SFdiv_self s m e :
  SF64div (S754_finite s m e) (S754_finite s m e) = Prim2SF 1.
Proof.
  unfold SF64div, SFdiv. rewrite SFdiv_core_binary_self.
  rewrite xorb_nilpotent. reflexivity.
Qed.

(** A finite number other than zero divided by itself is one. *)
Theorem div_self x :
  (0 <? x) = true -> (x <? infinity) = true -> x / x = 1.
Proof.
  intros Hpos Hfin. apply Prim2SF_inj. rewrite div_spec.
  destruct (positive_finite_spec x (conj Hpos Hfin)) as [H1 H2].
  destruct (Prim2SF x) as [s|s| |s m e]; try discriminate.
  apply SFdiv_self.
Qed.

(** A positive finite number times zero is zero. *)
Lemma mul_zero_r x :
  (0 <? x) = true -> (x <? infinity) = true -> x * 0 = 0.
Proof.
  intros Hpos Hfin. apply Prim2SF_inj. rewrite mul_spec.
  destruct (positive_finite_spec x (conj Hpos Hfin)) as [H1 H2].
  change (Prim2SF 0) with (S754_zero false).
  destruct (Prim2SF x) as [s|s| |s m e]; try discriminate.
  simpl in H1. apply negb_true_iff in H1. subst s. reflexivity.
Qed.
End Binary64Facts.

(** ** The guards of the calculator *)

Lemma calculateEmission_rejects factors d m :
  is_nan d = true \/ (d <? 0) = true ->
  Calculator.calculateEmission factors d m = None.
Proof.
  intros H. unfold Calculator.calculateEmission, Number_isNaN.
  destruct H as [-> | ->]; [reflexivity | now rewrite orb_true_r].
Qed.

Lemma own_None_iff factors m :
  own factors m = None <-> ~ In m (Object_keys factors).
Proof.
  induction factors as [|[k v] rest IH]; simpl.
  - tauto.
  - destruct (String.eqb_spec k m) as [->|Hne].
    + split; [discriminate | tauto].
    + rewrite IH. split; [intros H [E|E]; tauto | tauto].
Qed.

Lemma includes_spec keys m : includes keys m = true <-> In m keys.
Proof.
  unfold includes. rewrite existsb_exists. split.
  - intros [k [Hk E]]. apply String.eqb_eq in E. now subst.
  - intros H. exists m. split; [assumption | apply String.eqb_refl].
Qed.

Lemma get_Undefined_iff factors m :
  ~ In m Object_prototype_names ->
  (get factors m = Undefined <-> ~ In m (Object_keys factors)).
Proof.
  intros Hproto. unfold get. rewrite <- own_None_iff.
  destruct (own factors m) as [v|].
  - split; discriminate.
  - fold (includes Object_prototype_names m).
    destruct (includes Object_prototype_names m) eqn:E.
    + apply includes_spec in E. contradiction.
    + tauto.
Qed.

(** C2 (as amended): for a mode that is not one of the names every object
    inherits, [calculateEmission] answers [null] exactly when the distance is
    NaN or negative or the mode is not a key of the factor table; a distance
    of +Infinity is not rejected.  In every other case the answer is the
    product of the distance and the mode's factor, rounded to two places. *)
Theorem calculateEmission_null_iff factors d m :
  ~ In m Object_prototype_names ->
  (Calculator.calculateEmission factors d m = None <->
     is_nan d = true \/ (d <? 0) = true \/ ~ In m (Object_keys factors))
  /\ (forall f, is_nan d = false -> (d <? 0) = false ->
        own factors m = Some f ->
        Calculator.calculateEmission factors d m
        = Some (Calculator._round (d * f) 2)).
Proof.
  intros Hproto. split.
  - rewrite <- (get_Undefined_iff factors m Hproto).
    unfold Calculator.calculateEmission, Number_isNaN.
    destruct (is_nan d); simpl; [intuition|].
    destruct (d <? 0); simpl; [intuition|].
    destruct (get factors m); split; intros H;
      try discriminate H; try reflexivity; try tauto;
      destruct H as [H|[H|H]]; discriminate H.
  - intros f Hnan Hneg Hown.
    unfold Calculator.calculateEmission, Number_isNaN, get.
    now rewrite Hnan, Hneg, Hown.
Qed.

Lemma calculateEmission_null_iff_witness :
  (Calculator.calculateEmission EF 430 "car" = None <->
     is_nan 430 = true \/ (430 <? 0) = true \/ ~ In "car" (Object_keys EF))
  /\ (forall f, is_nan 430 = false -> (430 <? 0) = false ->
        own EF "car" = Some f ->
        Calculator.calculateEmission EF 430 "car"
        = Some (Calculator._round (430 * f) 2)).
Proof.
  apply (calculateEmission_null_iff EF 430 "car").
  simpl. intros H.
  repeat (destruct H as [H|H]; [discriminate H|]). exact H.
Defined.

(** The claim C2 fails as stated: +Infinity is not a finite number, yet the
    emission computed for it is +Infinity, not [null]. *)
Lemma calculateEmission_accepts_infinity :
  is_finite infinity = false
  /\ Calculator.calculateEmission EF infinity "car" = Some infinity.
Proof. split; vm_compute; reflexivity. Qed.

(** A name inherited from [Object.prototype] is not rejected either: the
    factor found is a function, whose numeric value is NaN. *)
Lemma calculateEmission_inherited_name :
  Calculator.calculateEmission EF 430 "toString" = Some nan.
Proof. vm_compute. reflexivity. Qed.

(** ** The price estimate *)

(** C1 (as amended): for every credits value that is neither NaN nor
    negative, the estimate has [min] and [max] the rounded products, and
    [average] the rounded mean of the unrounded products (average, then
    round). *)
Theorem estimateCreditPrice_value policy c :
  is_nan c = false -> (c <? 0) = false ->
  Calculator.estimateCreditPrice policy c
  = Some {| Calculator.min :=
              Calculator._round (c * CONFIG.PRICE_MIN_BRL policy) 2;
            Calculator.max :=
              Calculator._round (c * CONFIG.PRICE_MAX_BRL policy) 2;
            Calculator.average :=
              Calculator._round
                ((c * CONFIG.PRICE_MIN_BRL policy
                  + c * CONFIG.PRICE_MAX_BRL policy) / 2) 2 |}.
Proof.
  intros Hnan Hneg. unfold Calculator.estimateCreditPrice, Number_isNaN.
  now rewrite Hnan, Hneg.
Qed.

Lemma estimateCreditPrice_value_witness :
  Calculator.estimateCreditPrice CC 0.0516
  = Some {| Calculator.min := Calculator._round (0.0516 * 50) 2;
            Calculator.max := Calculator._round (0.0516 * 150) 2;
            Calculator.average :=
              Calculator._round ((0.0516 * 50 + 0.0516 * 150) / 2) 2 |}.
Proof.
  apply (estimateCreditPrice_value CC 0.0516); vm_compute; reflexivity.
Defined.

(** The claim C1 fails as stated: at 0.0001 credits (finite, not negative)
    the bounds are 0.01 and 0.02 and the average returned is 0.01, while the
    mean of the rounded bounds rounds to 0.02. *)
Lemma estimateCreditPrice_not_roundThenAverage :
  is_finite 0.0001 = true /\ (0 <=? 0.0001) = true
  /\ Calculator.estimateCreditPrice CC 0.0001
     = Some {| Calculator.min := 0.01; Calculator.max := 0.02;
               Calculator.average := 0.01 |}
  /\ estimatePrice_roundThenAverage CC 0.0001
     = {| Calculator.min := 0.01; Calculator.max := 0.02;
          Calculator.average := 0.02 |}
  /\ Calculator.estimateCreditPrice CC 0.0001
     <> Some (estimatePrice_roundThenAverage CC 0.0001).
Proof.
  repeat split; try (vm_compute; reflexivity).
  intros H.
  apply (f_equal (fun r => match r with
                           | Some p => same (Calculator.average p) 0.01
                           | None => false
                           end)) in H.
  vm_compute in H. discriminate H.
Qed.

(** ** The worked scenario *)

(** C3: São Paulo - Rio by car. *)
Theorem scenario_430_km_by_car :
  Calculator.calculateEmission EF 430 "car" = Some 51.60
  /\ option_map Calculator.savedKg (Calculator.calculateSavings 51.60 51.60)
     = Some 0
  /\ Calculator.calculateCarbonCredits CC 51.60 = Some 0.0516
  /\ Calculator.estimateCreditPrice CC 0.0516
     = Some {| Calculator.min := 2.58; Calculator.max := 7.74;
               Calculator.average := 5.16 |}.
Proof. repeat split; vm_compute; reflexivity. Qed.

(** ** Savings *)

(** C7 (as amended): [calculateSavings] answers [null] exactly when one of
    its inputs is NaN (an infinite input is not rejected); otherwise
    [savedKg] is the rounded difference, and [percentage] is the rounded
    ratio when the baseline is above zero and [null] when it is not.  A
    saving may be negative: 10 kg against a baseline of 5 kg saves -5 kg. *)
Theorem calculateSavings_value e b :
  Calculator.calculateSavings e b
  = (if is_nan e || is_nan b then None
     else
       let saved := Calculator._round (b - e) 2 in
       Some {| Calculator.savedKg := saved;
               Calculator.percentage :=
                 if 0 <? b
                 then Some (Calculator._round (saved / b * 100) 2)
                 else None |})
  /\ (Calculator.calculateSavings e b = None <->
        is_nan e = true \/ is_nan b = true)
  /\ Calculator.calculateSavings 10 5
     = Some {| Calculator.savedKg := -5;
               Calculator.percentage := Some (-100) |}.
Proof.
  unfold Calculator.calculateSavings, Number_isNaN.
  split; [reflexivity|]. split; [|vm_compute; reflexivity].
  destruct (is_nan e), (is_nan b); simpl; split; intros H;
    try reflexivity; try discriminate; try tauto;
    destruct H; discriminate.
Qed.

(** The claim C7 fails as stated: +Infinity is not a finite number, yet
    the savings computed from it are a record, not [null]. *)
Lemma calculateSavings_accepts_infinity :
  is_finite infinity = false
  /\ Calculator.calculateSavings infinity 1
     = Some {| Calculator.savedKg := neg_infinity;
               Calculator.percentage := Some neg_infinity |}.
Proof. split; vm_compute; reflexivity. Qed.

(** ** The route lookup *)

Section LookupSymmetry.
Variables trim toLowerCase : JsString.jsstring -> JsString.jsstring.

Lemma scan_sym rs o d :
  RoutesDB.scan trim toLowerCase rs o d
  = RoutesDB.scan trim toLowerCase rs d o.
Proof.
  induction rs as [|r rs IH]; simpl; [reflexivity|].
  rewrite IH. now rewrite orb_comm.
Qed.

(** C8: the lookup does not depend on the order of its two arguments,
    whatever the two strings are, whatever [trim] and [toLowerCase]
    compute and whatever the table holds. *)
Theorem findDistance_comm table a b :
  RoutesDB.findDistanceIn trim toLowerCase table a b
  = RoutesDB.findDistanceIn trim toLowerCase table b a.
Proof.
  unfold RoutesDB.findDistanceIn.
  destruct a as [|x a], b as [|y b]; try reflexivity.
  apply scan_sym.
Qed.
End LookupSymmetry.

(** The lookup as shipped is one instance. *)
Corollary findDistance_shipped_comm a b :
  RoutesDB.findDistance a b = RoutesDB.findDistance b a.
Proof. apply findDistance_comm. Qed.

(** Every code unit of the route table lies in the Basic Latin or Latin-1
    Supplement block, where [toLowerCase] is modelled exactly. *)
Lemma routes_latin1 :
  Forall (fun r =>
            Forall (fun c => (c < 256)%N) (RoutesDB.origin r)
            /\ Forall (fun c => (c < 256)%N) (RoutesDB.destination r))
         RoutesDB.routes.
Proof.
  unfold RoutesDB.routes.
  repeat (apply Forall_cons;
          [split; vm_compute; repeat (constructor; try reflexivity)|]).
  apply Forall_nil.
Qed.

(** C4: every record of the table is found from its own two names, in
    both directions, with its own distance. *)
Theorem findDistance_table :
  Forall (fun r =>
            RoutesDB.findDistance (RoutesDB.origin r) (RoutesDB.destination r)
            = Some (RoutesDB.distanceKm r)
            /\ RoutesDB.findDistance (RoutesDB.destination r)
                 (RoutesDB.origin r)
               = Some (RoutesDB.distanceKm r))
         RoutesDB.routes.
Proof.
  unfold RoutesDB.routes.
  repeat (apply Forall_cons; [split; vm_compute; reflexivity|]).
  apply Forall_nil.
Qed.

(** ** The sort *)

Section SortFacts.
Context {A : Type}.
Variable comparefn : A -> A -> float.

Lemma insert_perm x l :
  Permutation (JsArray.insert comparefn x l) (x :: l).
Proof.
  induction l as [|y l IH]; simpl; [reflexivity|].
  destruct (comparefn x y <? 0); [reflexivity|].
  rewrite IH. apply perm_swap.
Qed.

Lemma fold_insert_perm l acc :
  Permutation
    (fold_left (fun sorted x => JsArray.insert comparefn x sorted) l acc)
    (acc ++ l).
Proof.
  revert acc. induction l as [|x l IH]; intros acc; simpl.
  - now rewrite app_nil_r.
  - rewrite IH, insert_perm. simpl. apply Permutation_middle.
Qed.

Lemma sort_perm l : Permutation (JsArray.sort comparefn l) l.
Proof. unfold JsArray.sort. now rewrite fold_insert_perm. Qed.

Lemma sort_Forall (P : A -> Prop) l :
  Forall P l -> Forall P (JsArray.sort comparefn l).
Proof.
  intros H. eapply Permutation_Forall; [|exact H].
  symmetry. apply sort_perm.
Qed.

(** An element that never compares below another one is put last. *)
Lemma insert_last x l :
  (forall y, In y l -> (comparefn x y <? 0) = false) ->
  JsArray.insert comparefn x l = l ++ [x].
Proof.
  induction l as [|y l IH]; intros H; simpl; [reflexivity|].
  rewrite (H y (or_introl eq_refl)). f_equal.
  apply IH. intros z Hz. apply H. now right.
Qed.

(** Insertion leaves the elements already there in their order. *)
Lemma insert_filter (p : A -> bool) x l :
  p x = false ->
  filter p (JsArray.insert comparefn x l) = filter p l.
Proof.
  intros Hx. induction l as [|y l IH]; simpl.
  - now rewrite Hx.
  - destruct (comparefn x y <? 0); simpl.
    + now rewrite Hx.
    + now rewrite IH.
Qed.
End SortFacts.

(** ** The comparison of all modes *)

Lemma calculateAllModes_perm factors d :
  Permutation (Calculator.calculateAllModes factors d)
    (map (Calculator.entryFor factors d
            (Calculator.referenceEmission factors d))
         (Object_keys factors)).
Proof. apply sort_perm. Qed.

(** C6 (as amended): in every entry of the comparison, [percentageVsCar] is
    the rounded ratio exactly when the reference emission computed for "car"
    is a number above zero (+Infinity included) and the entry's own emission
    is not [null]; it is [null] in every other case: "car" absent from the
    table, a reference emission that is [null], zero or NaN, or an entry
    whose emission is [null]. *)
Theorem percentageVsCar_value factors d :
  Forall (fun en =>
            Calculator.percentageVsCar en
            = match Calculator.emission en,
                    Calculator.referenceEmission factors d with
              | Some e, Some c =>
                  if 0 <? c
                  then Some (Calculator._round (e / c * 100) 2)
                  else None
              | _, _ => None
              end)
         (Calculator.calculateAllModes factors d)
  /\ (~ In "car" (Object_keys factors) ->
      Calculator.referenceEmission factors d = None).
Proof.
  split.
  - apply sort_Forall. apply Forall_forall. intros en Hen.
    apply in_map_iff in Hen. destruct Hen as [m [<- _]]. reflexivity.
  - intros Hcar. unfold Calculator.referenceEmission.
    destruct (includes (Object_keys factors) "car") eqn:E; [|reflexivity].
    apply includes_spec in E. contradiction.
Qed.

Lemma percentageVsCar_value_witness :
  Forall (fun en =>
            Calculator.percentageVsCar en
            = match Calculator.emission en,
                    Calculator.referenceEmission [("bus", 0.089)] 430 with
              | Some e, Some c =>
                  if 0 <? c
                  then Some (Calculator._round (e / c * 100) 2)
                  else None
              | _, _ => None
              end)
         (Calculator.calculateAllModes [("bus", 0.089)] 430)
  /\ Calculator.referenceEmission [("bus", 0.089)] 430 = None.
Proof.
  destruct (percentageVsCar_value [("bus", 0.089)] 430) as [H1 H2].
  split; [exact H1|]. apply H2. simpl. intros [H|H]; [discriminate H|exact H].
Defined.

(** The claim C6 fails as stated: at a distance of +Infinity the reference
    emission is +Infinity, which is not finite, and the percentage of the
    "car" entry is NaN rather than [null]. *)
Lemma percentageVsCar_infinite_reference :
  Calculator.referenceEmission EF infinity = Some infinity
  /\ is_finite infinity = false
  /\ In {| Calculator.mode := "car";
           Calculator.emission := Some infinity;
           Calculator.percentageVsCar := Some nan |}
        (Calculator.calculateAllModes EF infinity).
Proof.
  split; [vm_compute; reflexivity|]. split; [vm_compute; reflexivity|].
  vm_compute. right. left. reflexivity.
Qed.

(** ** Rounding keeps a number at or above zero *)

Lemma of_uint63_nonneg n : nonneg (of_uint63 n).
Proof.
  unfold nonneg. rewrite leb_zero_spec, of_uint63_spec.
  apply binary_normalize_nonneg. apply Uint63.to_Z_bounded.
Qed.

Lemma round_half_up_nonneg m k : (0 <= round_half_up (Z.pos m) k)%Z.
Proof. unfold round_half_up. apply Z.shiftr_nonneg. lia. Qed.

Lemma Math_round_nonneg x : nonneg x -> nonneg (Math_round x).
Proof.
  intros Hx. unfold Math_round.
  destruct (Prim2SF x) as [s|s| |s m e] eqn:E; try assumption.
  destruct e as [|p|k]; try assumption.
  assert (s = false) as ->.
  { unfold nonneg in Hx. rewrite leb_zero_spec, E in Hx.
    now apply negb_true_iff in Hx. }
  pose proof (round_half_up_nonneg m k) as Hn.
  destruct (round_half_up (Z.pos m) k) as [|n|n]; try lia.
  - reflexivity.
  - apply of_uint63_nonneg.
Qed.

Lemma _round_nonneg v : nonneg v -> nonneg (Calculator._round v 2).
Proof.
  intros Hv. unfold Calculator._round.
  change (Math_pow10 2) with 100.
  apply div_nonneg; [|split; reflexivity].
  apply Math_round_nonneg, mul_nonneg; [|split; reflexivity].
  apply add_nonneg; [assumption|reflexivity].
Qed.

Lemma own_In factors m :
  In m (Object_keys factors) ->
  exists f, own factors m = Some f /\ In (m, f) factors.
Proof.
  induction factors as [|[k v] rest IH]; simpl; [tauto|].
  intros H. destruct (String.eqb_spec k m) as [->|Hne].
  - exists v. auto.
  - destruct H as [H|H]; [contradiction|].
    destruct (IH H) as [f [H1 H2]]. exists f. auto.
Qed.

(** With real factors, the emission of a key of the table is [null] or a
    number at or above zero, whatever the distance short of +Infinity. *)
Lemma calculateEmission_orderable factors d m :
  realFactors factors -> d <> infinity -> In m (Object_keys factors) ->
  match Calculator.calculateEmission factors d m with
  | None => True
  | Some e => nonneg e
  end.
Proof.
  intros Hreal Hd Hm. unfold Calculator.calculateEmission, Number_isNaN.
  destruct (is_nan d) eqn:Hnan; simpl; [exact I|].
  destruct (d <? 0) eqn:Hneg; simpl; [exact I|].
  destruct (accepted_distance d Hnan Hneg Hd) as [Hd0 Hdfin].
  destruct (own_In factors m Hm) as [f [Hown Hin]].
  unfold get. rewrite Hown. simpl.
  unfold realFactors in Hreal. rewrite Forall_forall in Hreal.
  destruct (Hreal _ Hin) as [Hf0 Hffin]. simpl in Hf0, Hffin.
  apply _round_nonneg. now apply mul_nonneg_finite.
Qed.

(** ** The comparison function orders the entries *)

Lemma byEmission_lt a b :
  (Calculator.byEmission a b <? 0) = true -> ascending a b.
Proof.
  unfold Calculator.byEmission, ascending.
  destruct (Calculator.emission a) as [x|], (Calculator.emission b) as [y|];
    try (intros _; exact I); try (intros H; discriminate H).
  rewrite sub_ltb_zero. apply ltb_leb.
Qed.

Lemma byEmission_ge a b :
  orderable a -> orderable b ->
  (Calculator.byEmission a b <? 0) = false -> ascending b a.
Proof.
  unfold Calculator.byEmission, ascending, orderable.
  destruct (Calculator.emission a) as [x|], (Calculator.emission b) as [y|];
    intros Ha Hb; try (intros _; exact I); try (intros H; discriminate H).
  rewrite sub_ltb_zero. now apply ltb_false_leb.
Qed.

Section SortSorted.
Context {A : Type}.
Variable comparefn : A -> A -> float.
Variable le : A -> A -> Prop.
Variable P : A -> Prop.
Hypothesis below : forall x y, (comparefn x y <? 0) = true -> le x y.
Hypothesis not_below :
  forall x y, P x -> P y -> (comparefn x y <? 0) = false -> le y x.

Lemma insert_HdRel z x l :
  le z x -> HdRel le z l -> HdRel le z (JsArray.insert comparefn x l).
Proof.
  intros Hzx Hzl. destruct l as [|y l]; simpl.
  - now constructor.
  - destruct (comparefn x y <? 0); constructor; [assumption|].
    now inversion Hzl.
Qed.

Lemma insert_Sorted x l :
  P x -> Forall P l -> Sorted le l ->
  Sorted le (JsArray.insert comparefn x l).
Proof.
  intros Hx Hl Hs. induction l as [|y l IH]; simpl.
  - repeat constructor.
  - inversion Hl as [|? ? Hy Hl']; subst.
    inversion Hs as [|? ? Hs' Hhd]; subst.
    destruct (comparefn x y <? 0) eqn:E.
    + constructor; [assumption|]. constructor. now apply below.
    + constructor; [now apply IH|].
      apply insert_HdRel; [|assumption]. now apply not_below.
Qed.

Lemma fold_insert_Sorted l : forall acc,
  Forall P l -> Forall P acc -> Sorted le acc ->
  Sorted le (fold_left (fun sorted x => JsArray.insert comparefn x sorted)
               l acc).
Proof.
  induction l as [|x l IH]; intros acc Hl Hacc Hs; simpl; [assumption|].
  inversion Hl as [|? ? Hx Hl']; subst.
  apply IH; [assumption| |now apply insert_Sorted].
  eapply Permutation_Forall; [symmetry; apply insert_perm|].
  now constructor.
Qed.

Lemma sort_Sorted l : Forall P l -> Sorted le (JsArray.sort comparefn l).
Proof.
  intros Hl. apply fold_insert_Sorted; [assumption|constructor|constructor].
Qed.
End SortSorted.

Section SortStable.
Context {A : Type}.
Variable comparefn : A -> A -> float.

(** The elements of a class that never compares below anything keep their
    order. *)
Lemma fold_insert_filter (p : A -> bool) l :
  (forall x y, p x = true -> (comparefn x y <? 0) = false) ->
  forall acc,
  filter p (fold_left (fun sorted x => JsArray.insert comparefn x sorted)
              l acc)
  = filter p acc ++ filter p l.
Proof.
  intros Hp. induction l as [|x l IH]; intros acc; simpl.
  - now rewrite app_nil_r.
  - rewrite IH. destruct (p x) eqn:Hx.
    + rewrite insert_last by (intros; now apply Hp).
      rewrite filter_app. simpl. rewrite Hx. now rewrite <- app_assoc.
    + now rewrite insert_filter.
Qed.

(** The first element stays first when nothing compares below it. *)
Lemma fold_insert_head h l : forall acc,
  (forall y, In y l -> (comparefn y h <? 0) = false) ->
  hd_error
    (fold_left (fun sorted x => JsArray.insert comparefn x sorted)
       l (h :: acc))
  = Some h.
Proof.
  induction l as [|x l IH]; intros acc H; simpl; [reflexivity|].
  rewrite (H x (or_introl eq_refl)). apply IH.
  intros y Hy. apply H. now right.
Qed.

Lemma sort_head h l :
  (forall y, In y l -> (comparefn y h <? 0) = false) ->
  hd_error (JsArray.sort comparefn (h :: l)) = Some h.
Proof. intros H. unfold JsArray.sort. simpl. now apply fold_insert_head. Qed.
End SortStable.

(** ** The ranking of the modes *)

Lemma EF_real : realFactors EF.
Proof. repeat constructor. Qed.

Lemma entryFor_mode factors d c m :
  Calculator.mode (Calculator.entryFor factors d c m) = m.
Proof. reflexivity. Qed.

Lemma calculateAllModes_modes factors d :
  Permutation (map Calculator.mode (Calculator.calculateAllModes factors d))
    (Object_keys factors).
Proof.
  rewrite (calculateAllModes_perm factors d), map_map.
  erewrite map_ext; [rewrite map_id; reflexivity|]. reflexivity.
Qed.

Lemma calculateAllModes_orderable factors d :
  realFactors factors -> d <> infinity ->
  Forall orderable
    (map (Calculator.entryFor factors d
            (Calculator.referenceEmission factors d))
         (Object_keys factors)).
Proof.
  intros Hreal Hd. apply Forall_forall. intros en Hen.
  apply in_map_iff in Hen. destruct Hen as [m [<- Hm]].
  unfold orderable. simpl.
  apply (calculateEmission_orderable factors d m Hreal Hd Hm).
Qed.

Lemma isInvalid_last a b :
  isInvalid a = true -> (Calculator.byEmission a b <? 0) = false.
Proof.
  unfold isInvalid, Calculator.byEmission.
  destruct (Calculator.emission a); [discriminate|].
  destruct (Calculator.emission b); reflexivity.
Qed.

Lemma bicycle_emission d :
  (0 <? d) = true -> (d <? infinity) = true ->
  Calculator.calculateEmission EF d "bicycle" = Some 0.
Proof.
  intros Hpos Hfin.
  assert (Hd : d <> infinity).
  { intros ->. discriminate Hfin. }
  assert (Hnan : is_nan d = false).
  { rewrite is_nan_spec. rewrite ltb_zero_spec in Hpos.
    destruct (Prim2SF d); try reflexivity; discriminate. }
  assert (Hneg : (d <? 0) = false).
  { apply nonneg_not_neg. unfold nonneg. rewrite leb_zero_spec.
    rewrite ltb_zero_spec in Hpos.
    destruct (Prim2SF d); try reflexivity; try assumption; discriminate. }
  unfold Calculator.calculateEmission, Number_isNaN.
  rewrite Hnan, Hneg. simpl. now rewrite mul_zero_r.
Qed.

(** C5 (as amended): for every distance other than +Infinity, the
    comparison holds exactly one entry per key of the factor table, in
    ascending order of emission with the [null] emissions last, the entries
    with a [null] emission in the order of the table; and for a finite
    distance above zero the first entry is "bicycle", the mode of factor 0. *)
Theorem calculateAllModes_ranking d :
  d <> infinity ->
  Permutation (map Calculator.mode (Calculator.calculateAllModes EF d))
    (Object_keys EF)
  /\ NoDup (map Calculator.mode (Calculator.calculateAllModes EF d))
  /\ Sorted ascending (Calculator.calculateAllModes EF d)
  /\ filter isInvalid (Calculator.calculateAllModes EF d)
     = filter isInvalid
         (map (Calculator.entryFor EF d (Calculator.referenceEmission EF d))
            (Object_keys EF))
  /\ ((0 <? d) = true -> (d <? infinity) = true ->
      option_map Calculator.mode
        (hd_error (Calculator.calculateAllModes EF d))
      = Some "bicycle").
Proof.
  intros Hd. split; [apply calculateAllModes_modes|].
  split.
  { eapply Permutation_NoDup.
    - symmetry. apply calculateAllModes_modes.
    - repeat constructor; simpl; intuition discriminate. }
  split.
  { apply (sort_Sorted Calculator.byEmission ascending orderable).
    - apply byEmission_lt.
    - apply byEmission_ge.
    - apply calculateAllModes_orderable; [apply EF_real|assumption]. }
  split.
  { unfold Calculator.calculateAllModes, JsArray.sort.
    rewrite fold_insert_filter; [reflexivity|].
    intros x y. apply isInvalid_last. }
  intros Hpos Hfin.
  unfold Calculator.calculateAllModes.
  set (c := Calculator.referenceEmission EF d).
  change (Object_keys EF) with ["bicycle"; "car"; "bus"; "boat"].
  cbn [map].
  rewrite sort_head; [reflexivity|].
  intros y Hy.
  assert (Hy' : orderable y).
  { pose proof (calculateAllModes_orderable EF d EF_real Hd) as H.
    rewrite Forall_forall in H. apply H. fold c.
    change (Object_keys EF) with ["bicycle"; "car"; "bus"; "boat"].
    right. exact Hy. }
  assert (Hb : Calculator.emission (Calculator.entryFor EF d c "bicycle")
               = Some 0) by (now apply bicycle_emission).
  unfold Calculator.byEmission. rewrite Hb.
  unfold orderable in Hy'.
  destruct (Calculator.emission y) as [e|]; [|reflexivity].
  rewrite sub_ltb_zero. now apply nonneg_not_neg.
Qed.

Lemma calculateAllModes_ranking_witness :
  Permutation (map Calculator.mode (Calculator.calculateAllModes EF 430))
    (Object_keys EF)
  /\ NoDup (map Calculator.mode (Calculator.calculateAllModes EF 430))
  /\ Sorted ascending (Calculator.calculateAllModes EF 430)
  /\ filter isInvalid (Calculator.calculateAllModes EF 430)
     = filter isInvalid
         (map (Calculator.entryFor EF 430
                 (Calculator.referenceEmission EF 430))
            (Object_keys EF))
  /\ ((0 <? 430) = true -> (430 <? infinity) = true ->
      option_map Calculator.mode
        (hd_error (Calculator.calculateAllModes EF 430))
      = Some "bicycle").
Proof.
  apply (calculateAllModes_ranking 430).
  intros H. apply (f_equal (fun x => same x infinity)) in H.
  vm_compute in H. discriminate H.
Defined.

(** The claim C5 fails as stated: at a distance of +Infinity the emission
    of "bicycle" is Infinity times 0, which is NaN; it comes first and is
    not below the emission that follows it. *)
Lemma calculateAllModes_infinity_unordered :
  Calculator.calculateAllModes EF infinity
  = [ {| Calculator.mode := "bicycle"; Calculator.emission := Some nan;
         Calculator.percentageVsCar := Some nan |};
      {| Calculator.mode := "car"; Calculator.emission := Some infinity;
         Calculator.percentageVsCar := Some nan |};
      {| Calculator.mode := "bus"; Calculator.emission := Some infinity;
         Calculator.percentageVsCar := Some nan |};
      {| Calculator.mode := "boat"; Calculator.emission := Some infinity;
         Calculator.percentageVsCar := Some nan |} ]
  /\ ~ Sorted ascending (Calculator.calculateAllModes EF infinity).
Proof.
  assert (E : Calculator.calculateAllModes EF infinity
              = [ {| Calculator.mode := "bicycle";
                     Calculator.emission := Some nan;
                     Calculator.percentageVsCar := Some nan |};
                  {| Calculator.mode := "car";
                     Calculator.emission := Some infinity;
                     Calculator.percentageVsCar := Some nan |};
                  {| Calculator.mode := "bus";
                     Calculator.emission := Some infinity;
                     Calculator.percentageVsCar := Some nan |};
                  {| Calculator.mode := "boat";
                     Calculator.emission := Some infinity;
                     Calculator.percentageVsCar := Some nan |} ])
    by (vm_compute; reflexivity).
  split; [exact E|]. rewrite E. intros H.
  inversion H as [|? ? _ Hhd]; subst.
  inversion Hhd as [|? ? Hab]; subst.
  vm_compute in Hab. discriminate Hab.
Qed.

(** ** The percentage of the reference mode *)

(** C10 (as amended): whenever the emission computed for "car" is a
    positive finite number, the comparison has an entry for "car" and every
    such entry has [percentageVsCar] exactly 100. *)
Theorem car_percentage_100 factors d c :
  In "car" (Object_keys factors) ->
  Calculator.calculateEmission factors d "car" = Some c ->
  positive_finite c ->
  Forall (fun en =>
            Calculator.mode en = "car" ->
            Calculator.percentageVsCar en = Some 100)
         (Calculator.calculateAllModes factors d)
  /\ exists en, In en (Calculator.calculateAllModes factors d)
                /\ Calculator.mode en = "car".
Proof.
  intros Hcar Hc [Hpos Hfin].
  assert (Href : Calculator.referenceEmission factors d = Some c).
  { unfold Calculator.referenceEmission.
    now rewrite (proj2 (includes_spec _ _) Hcar). }
  split.
  - apply sort_Forall. apply Forall_forall. intros en Hen.
    apply in_map_iff in Hen. destruct Hen as [m [<- _]].
    rewrite entryFor_mode. intros ->.
    unfold Calculator.entryFor. cbn [Calculator.percentageVsCar].
    rewrite Href, Hc, Hpos, div_self by assumption.
    vm_compute. reflexivity.
  - exists (Calculator.entryFor factors d
              (Calculator.referenceEmission factors d) "car").
    split; [|reflexivity].
    eapply Permutation_in; [symmetry; apply calculateAllModes_perm|].
    now apply in_map.
Qed.

Lemma car_percentage_100_witness :
  Forall (fun en =>
            Calculator.mode en = "car" ->
            Calculator.percentageVsCar en = Some 100)
         (Calculator.calculateAllModes EF 430)
  /\ exists en, In en (Calculator.calculateAllModes EF 430)
                /\ Calculator.mode en = "car".
Proof.
  apply (car_percentage_100 EF 430 51.6).
  - simpl. right. left. reflexivity.
  - vm_compute. reflexivity.
  - split; vm_compute; reflexivity.
Defined.

(** The claim C10 fails as stated: 0.01 km is finite and above zero, the
    emission of "car" rounds to 0 there, and the percentage of its entry is
    [null]. *)
Lemma car_percentage_null_at_short_distance :
  is_finite 0.01 = true /\ (0 <? 0.01) = true
  /\ In {| Calculator.mode := "car"; Calculator.emission := Some 0;
           Calculator.percentageVsCar := None |}
        (Calculator.calculateAllModes EF 0.01).
Proof.
  split; [vm_compute; reflexivity|]. split; [vm_compute; reflexivity|].
  vm_compute. right. left. reflexivity.
Qed.

(* ================================================================== *)
(** * Further properties of the code                                  *)
(* ================================================================== *)

(** ** The scan of the route table *)

Lemma jsstring_eqb_eq s t : JsString.eqb s t = true <-> s = t.
Proof.
  unfold JsString.eqb. destruct (list_eq_dec N.eq_dec s t); split;
    intros H; try reflexivity; try assumption; try discriminate.
  contradiction.
Qed.

Section ScanFacts.
Variables trim toLowerCase : JsString.jsstring -> JsString.jsstring.

Local Abbreviation matching := (Props.matching trim toLowerCase).

Lemma scan_test r o d :
  (JsString.eqb (toLowerCase (trim (RoutesDB.origin r))) o
   && JsString.eqb (toLowerCase (trim (RoutesDB.destination r))) d
   || JsString.eqb (toLowerCase (trim (RoutesDB.origin r))) d
      && JsString.eqb (toLowerCase (trim (RoutesDB.destination r))) o)%bool
  = true <-> matching r o d.
Proof.
  unfold Props.matching.
  rewrite orb_true_iff, !andb_true_iff, !jsstring_eqb_eq. reflexivity.
Qed.

Lemma scan_Some rs o d x :
  RoutesDB.scan trim toLowerCase rs o d = Some x <->
  exists before r after,
    rs = before ++ r :: after
    /\ (forall r', In r' before -> ~ matching r' o d)
    /\ matching r o d /\ RoutesDB.distanceKm r = x.
Proof.
  induction rs as [|r0 rs IH]; simpl.
  - split; [discriminate|].
    intros [before [r [after [H _]]]]. now destruct before.
  - destruct (_ || _)%bool eqn:E.
    + apply scan_test in E. split.
      * intros H. injection H as <-. exists [], r0, rs.
        split; [reflexivity|]. split; [intros r' []|]. split; auto.
      * intros [before [r [after [Heq [Hno [Hm Hx]]]]]].
        destruct before as [|r1 before]; simpl in Heq.
        -- injection Heq as -> ->. now rewrite Hx.
        -- injection Heq as -> ->. exfalso.
           apply (Hno r1); [now left|assumption].
    + assert (Hn : ~ matching r0 o d).
      { intros H. apply scan_test in H. congruence. }
      rewrite IH. split.
      * intros [before [r [after [Heq [Hno [Hm Hx]]]]]].
        exists (r0 :: before), r, after. subst rs. repeat split; auto.
        intros r' [<-|Hin]; auto.
      * intros [before [r [after [Heq [Hno [Hm Hx]]]]]].
        destruct before as [|r1 before]; simpl in Heq.
        -- injection Heq as -> ->. contradiction.
        -- injection Heq as -> ->. exists before, r, after.
           repeat split; auto. intros r' Hin. apply Hno. now right.
Qed.

Lemma scan_None rs o d :
  RoutesDB.scan trim toLowerCase rs o d = None <->
  forall r, In r rs -> ~ matching r o d.
Proof.
  induction rs as [|r0 rs IH]; simpl.
  - split; [intros _ r []|reflexivity].
  - destruct (_ || _)%bool eqn:E.
    + apply scan_test in E. split; [discriminate|].
      intros H. exfalso. apply (H r0); auto.
    + assert (Hn : ~ matching r0 o d).
      { intros H. apply scan_test in H. congruence. }
      rewrite IH. split.
      * intros H r [<-|Hin]; auto.
      * intros H r Hin. apply H. now right.
Qed.

(** X1: a lookup that answers a distance answers the distance of the
    first record of the table whose two names, trimmed and lower-cased,
    are the two arguments, trimmed and lower-cased, in one order or the
    other; a lookup of two non-empty strings answers [null] exactly when
    the table has no such record. *)
Theorem findDistance_first_match table a b :
  (forall x,
     RoutesDB.findDistanceIn trim toLowerCase table a b = Some x ->
     exists before r after,
       table = before ++ r :: after
       /\ (forall r', In r' before ->
             ~ matching r' (toLowerCase (trim a)) (toLowerCase (trim b)))
       /\ matching r (toLowerCase (trim a)) (toLowerCase (trim b))
       /\ RoutesDB.distanceKm r = x)
  /\ (a <> [] -> b <> [] ->
      (RoutesDB.findDistanceIn trim toLowerCase table a b = None <->
       forall r, In r table ->
         ~ matching r (toLowerCase (trim a)) (toLowerCase (trim b)))).
Proof.
  unfold RoutesDB.findDistanceIn. split.
  - intros x. destruct a as [|c a], b as [|c' b]; try discriminate.
    intros H. now apply scan_Some.
  - intros Ha Hb. destruct a as [|c a], b as [|c' b]; try contradiction.
    apply scan_None.
Qed.
End ScanFacts.

Lemma findDistance_first_match_witness :
  exists before r after,
    RoutesDB.routes = before ++ r :: after
    /\ (forall r', In r' before ->
          ~ Props.matching JsString.trim JsString.toLowerCase r'
              (JsString.toLowerCase (JsString.trim (JsString.js "santos, sp")))
              (JsString.toLowerCase
                 (JsString.trim (JsString.js " São Paulo, SP "))))
    /\ Props.matching JsString.trim JsString.toLowerCase r
         (JsString.toLowerCase (JsString.trim (JsString.js "santos, sp")))
         (JsString.toLowerCase (JsString.trim (JsString.js " São Paulo, SP ")))
    /\ RoutesDB.distanceKm r = 72.
Proof.
  apply (proj1 (findDistance_first_match JsString.trim JsString.toLowerCase
                  RoutesDB.routes (JsString.js "santos, sp")
                  (JsString.js " São Paulo, SP ")) 72).
  vm_compute. reflexivity.
Defined.

(** ** White space around a name *)

Lemma trimStart_blank s : Props.blank s -> JsString.trimStart s = [].
Proof.
  induction 1 as [|c s Hc _ IH]; simpl; [reflexivity|]. now rewrite Hc.
Qed.

Lemma trimStart_app s t :
  JsString.trimStart (s ++ t)
  = match JsString.trimStart s with
    | [] => JsString.trimStart t
    | s' => s' ++ t
    end.
Proof.
  induction s as [|c s IH]; simpl; [reflexivity|].
  destruct (JsString.isWhiteSpace c); [exact IH|reflexivity].
Qed.

Lemma blank_rev s : Props.blank s -> Props.blank (rev s).
Proof. unfold Props.blank. apply Forall_rev. Qed.

Lemma trimEnd_app_blank s w :
  Props.blank w -> JsString.trimEnd (s ++ w) = JsString.trimEnd s.
Proof.
  intros Hw. unfold JsString.trimEnd. rewrite rev_app_distr, trimStart_app.
  rewrite (trimStart_blank (rev w)) by now apply blank_rev. reflexivity.
Qed.

Lemma trim_blank s : Props.blank s -> JsString.trim s = [].
Proof.
  intros H. unfold JsString.trim. now rewrite (trimStart_blank s H).
Qed.

Lemma trim_padded w s w' :
  Props.blank w -> Props.blank w' ->
  JsString.trim (w ++ s ++ w') = JsString.trim s.
Proof.
  intros Hw Hw'. unfold JsString.trim.
  rewrite trimStart_app, (trimStart_blank w Hw), trimStart_app.
  destruct (JsString.trimStart s) as [|c s'] eqn:E.
  - now rewrite (trimStart_blank w' Hw').
  - now apply trimEnd_app_blank.
Qed.

(** No name of the shipped table is blank. *)
Lemma routes_named :
  Forall (fun r =>
            JsString.toLowerCase (JsString.trim (RoutesDB.origin r)) <> []
            /\ JsString.toLowerCase (JsString.trim (RoutesDB.destination r))
               <> [])
         RoutesDB.routes.
Proof.
  unfold RoutesDB.routes.
  repeat (apply Forall_cons; [split; vm_compute; discriminate|]).
  apply Forall_nil.
Qed.

Lemma scan_empty_name o :
  RoutesDB.scan JsString.trim JsString.toLowerCase RoutesDB.routes [] o = None
  /\ RoutesDB.scan JsString.trim JsString.toLowerCase RoutesDB.routes o []
     = None.
Proof.
  pose proof routes_named as H. rewrite Forall_forall in H.
  split; apply scan_None; intros r Hr [[H1 H2]|[H1 H2]];
    destruct (H r Hr) as [Ho Hd]; congruence.
Qed.

Lemma lookup_blank a b :
  Props.blank a \/ Props.blank b -> RoutesDB.findDistance a b = None.
Proof.
  intros H. unfold RoutesDB.findDistance, RoutesDB.findDistanceIn.
  destruct a as [|c a]; [reflexivity|]. destruct b as [|c' b]; [reflexivity|].
  destruct H as [H|H]; rewrite (trim_blank _ H); apply scan_empty_name.
Qed.

(** X2: a lookup with a blank argument (empty, or white space only)
    answers [null], whatever the other argument is. *)
Theorem findDistance_blank a b :
  Props.blank a \/ Props.blank b -> RoutesDB.findDistance a b = None.
Proof. apply lookup_blank. Qed.

Lemma findDistance_blank_witness :
  RoutesDB.findDistance (JsString.js "   ") (JsString.js "Santos, SP") = None.
Proof.
  apply findDistance_blank. left. repeat constructor.
Defined.

(** X3: white space before and after either name does not change the
    answer of the lookup. *)
Theorem findDistance_padded w1 a w2 w3 b w4 :
  Props.blank w1 -> Props.blank w2 -> Props.blank w3 -> Props.blank w4 ->
  RoutesDB.findDistance (w1 ++ a ++ w2) (w3 ++ b ++ w4)
  = RoutesDB.findDistance a b.
Proof.
  intros H1 H2 H3 H4.
  destruct a as [|c a].
  { rewrite lookup_blank; [reflexivity|]. left.
    rewrite app_nil_l. apply Forall_app. now split. }
  destruct b as [|c' b].
  { rewrite lookup_blank.
    - now destruct (c :: a).
    - right. rewrite app_nil_l. apply Forall_app. now split. }
  unfold RoutesDB.findDistance, RoutesDB.findDistanceIn.
  rewrite !trim_padded by assumption.
  destruct (w1 ++ (c :: a) ++ w2) as [|x l] eqn:E1.
  { apply app_eq_nil in E1. destruct E1 as [_ E1]. discriminate E1. }
  destruct (w3 ++ (c' :: b) ++ w4) as [|y l'] eqn:E2.
  { apply app_eq_nil in E2. destruct E2 as [_ E2]. discriminate E2. }
  reflexivity.
Qed.

Lemma findDistance_padded_witness :
  RoutesDB.findDistance
    (JsString.js "  " ++ JsString.js "Recife, PE" ++ JsString.js " ")
    ([] ++ JsString.js "Salvador, BA" ++ [9%N])
  = RoutesDB.findDistance (JsString.js "Recife, PE")
      (JsString.js "Salvador, BA").
Proof.
  apply findDistance_padded; repeat constructor.
Defined.

(** ** Letter case *)

Ltac code_unit_cases :=
  repeat match goal with
         | |- context [N.eqb ?a ?b] => destruct (N.eqb_spec a b); try lia
         | |- context [N.leb ?a ?b] => destruct (N.leb_spec a b); try lia
         end;
  try reflexivity.

Lemma isWhiteSpace_lower c :
  JsString.isWhiteSpace (JsString.lowerCodeUnit c) = JsString.isWhiteSpace c.
Proof.
  unfold JsString.lowerCodeUnit, JsString.isWhiteSpace.
  destruct (N.leb_spec 65 c), (N.leb_spec c 90),
    (N.leb_spec 192 c), (N.leb_spec c 222), (N.eqb_spec c 215);
    cbn [andb negb]; try lia; code_unit_cases.
Qed.

Lemma lowerCodeUnit_idem c :
  JsString.lowerCodeUnit (JsString.lowerCodeUnit c) = JsString.lowerCodeUnit c.
Proof.
  unfold JsString.lowerCodeUnit.
  destruct (N.leb_spec 65 c), (N.leb_spec c 90),
    (N.leb_spec 192 c), (N.leb_spec c 222), (N.eqb_spec c 215);
    cbn [andb negb]; try lia; code_unit_cases.
Qed.

Lemma trimStart_lower s :
  JsString.trimStart (JsString.toLowerCase s)
  = JsString.toLowerCase (JsString.trimStart s).
Proof.
  unfold JsString.toLowerCase.
  induction s as [|c s IH]; simpl; [reflexivity|].
  rewrite isWhiteSpace_lower.
  destruct (JsString.isWhiteSpace c); [exact IH|reflexivity].
Qed.

Lemma trim_lower s :
  JsString.trim (JsString.toLowerCase s)
  = JsString.toLowerCase (JsString.trim s).
Proof.
  unfold JsString.trim, JsString.trimEnd.
  rewrite trimStart_lower. unfold JsString.toLowerCase at 1.
  rewrite <- map_rev. fold (JsString.toLowerCase (rev (JsString.trimStart s))).
  rewrite trimStart_lower. unfold JsString.toLowerCase. now rewrite map_rev.
Qed.

Lemma toLowerCase_idem s :
  JsString.toLowerCase (JsString.toLowerCase s) = JsString.toLowerCase s.
Proof.
  unfold JsString.toLowerCase. rewrite map_map. apply map_ext.
  apply lowerCodeUnit_idem.
Qed.

Lemma normalize_case a a' :
  JsString.toLowerCase a = JsString.toLowerCase a' ->
  JsString.toLowerCase (JsString.trim a)
  = JsString.toLowerCase (JsString.trim a').
Proof. intros H. now rewrite <- !trim_lower, H. Qed.

(** X4: two spellings of a name that differ in letter case only give the
    same answer (names of the Basic Latin and Latin-1 blocks, where the
    lower-casing is modelled exactly). *)
Theorem findDistance_case_insensitive a a' b :
  Props.latin1 a -> Props.latin1 a' -> Props.latin1 b ->
  JsString.toLowerCase a = JsString.toLowerCase a' ->
  RoutesDB.findDistance a b = RoutesDB.findDistance a' b
  /\ RoutesDB.findDistance b a = RoutesDB.findDistance b a'.
Proof.
  intros _ _ _ H.
  pose proof (normalize_case a a' H) as Hn.
  unfold RoutesDB.findDistance, RoutesDB.findDistanceIn.
  destruct a as [|c a], a' as [|c' a']; try discriminate H.
  - split; reflexivity.
  - destruct b as [|x b]; [split; reflexivity|]. now rewrite Hn.
Qed.

Lemma findDistance_case_insensitive_witness :
  RoutesDB.findDistance (JsString.js "SÃO PAULO, sp") (JsString.js "Santos, SP")
  = RoutesDB.findDistance (JsString.js "são paulo, SP")
      (JsString.js "Santos, SP")
  /\ RoutesDB.findDistance (JsString.js "Santos, SP")
       (JsString.js "SÃO PAULO, sp")
     = RoutesDB.findDistance (JsString.js "Santos, SP")
         (JsString.js "são paulo, SP").
Proof.
  apply findDistance_case_insensitive;
    try (vm_compute; repeat constructor); reflexivity.
Defined.

(** ** The listing of the cities *)

Lemma Set_add_In set x y :
  In y (Cities.Set_add set x) <-> In y set \/ y = x.
Proof.
  unfold Cities.Set_add. destruct (existsb (JsString.eqb x) set) eqn:E.
  - apply existsb_exists in E. destruct E as [z [Hz E]].
    apply jsstring_eqb_eq in E. subst z.
    split; [now left|]. intros [H | ->]; assumption.
  - rewrite in_app_iff. simpl. intuition.
Qed.

Lemma Set_add_NoDup set x : NoDup set -> NoDup (Cities.Set_add set x).
Proof.
  intros H. unfold Cities.Set_add.
  destruct (existsb (JsString.eqb x) set) eqn:E; [assumption|].
  apply NoDup_app; [assumption|repeat constructor; intros []|].
  intros y Hy [Hxy|[]]. subst y.
  assert (existsb (JsString.eqb x) set = true); [|congruence].
  apply existsb_exists. exists x. split; [assumption|].
  now apply jsstring_eqb_eq.
Qed.

Lemma addRoute_In set r y :
  In y (Cities.addRoute set r) <->
  In y set
  \/ (y <> [] /\ (y = RoutesDB.origin r \/ y = RoutesDB.destination r)).
Proof.
  unfold Cities.addRoute.
  destruct (RoutesDB.origin r) as [|c o] eqn:Eo,
    (RoutesDB.destination r) as [|c' d] eqn:Ed;
    rewrite ?Set_add_In; split; intros H;
    repeat match goal with
           | H : _ \/ _ |- _ => destruct H
           | H : _ /\ _ |- _ => destruct H
           end; subst; auto;
    try contradiction;
    try (right; split; [discriminate|auto]).
Qed.

Lemma addRoute_NoDup set r : NoDup set -> NoDup (Cities.addRoute set r).
Proof.
  intros H. unfold Cities.addRoute.
  destruct (RoutesDB.origin r), (RoutesDB.destination r);
    auto using Set_add_NoDup.
Qed.

Lemma collected_In table : forall set y,
  In y (fold_left Cities.addRoute table set) <->
  In y set
  \/ (y <> []
      /\ exists r, In r table
                   /\ (y = RoutesDB.origin r \/ y = RoutesDB.destination r)).
Proof.
  induction table as [|r table IH]; intros set y; simpl.
  - split; [now left|]. intros [H|[_ [r [Hin _]]]]; [assumption|destruct Hin].
  - rewrite IH, addRoute_In. split.
    + intros [[H|[Hy H]]|[Hy [r' [Hr' H]]]]; auto.
      * right. split; [assumption|]. exists r. auto.
      * right. split; [assumption|]. exists r'. auto.
    + intros [H|[Hy [r' [[<-|Hr'] H]]]]; auto.
      right. split; [assumption|]. exists r'. auto.
Qed.

Lemma collected_NoDup table : forall set,
  NoDup set -> NoDup (fold_left Cities.addRoute table set).
Proof.
  induction table as [|r table IH]; intros set H; simpl; [assumption|].
  apply IH. now apply addRoute_NoDup.
Qed.

Lemma listed_iff localeCompare table c :
  In c (Cities.getAllCitiesIn localeCompare table) <->
  c <> []
  /\ exists r, In r table
               /\ (c = RoutesDB.origin r \/ c = RoutesDB.destination r).
Proof.
  unfold Cities.getAllCitiesIn. split.
  - intros H. apply (Permutation_in _ (sort_perm _ _)) in H.
    apply collected_In in H. destruct H as [[]|H]. exact H.
  - intros H. apply (Permutation_in _ (Permutation_sym (sort_perm _ _))).
    apply collected_In. now right.
Qed.

(** X5: whatever the collation, the listing has no name twice, and it
    holds exactly the non-empty names that are the origin or the
    destination of a record. *)
Theorem getAllCities_exact localeCompare table :
  NoDup (Cities.getAllCitiesIn localeCompare table)
  /\ forall c,
       In c (Cities.getAllCitiesIn localeCompare table) <->
       c <> []
       /\ exists r, In r table
                    /\ (c = RoutesDB.origin r \/ c = RoutesDB.destination r).
Proof.
  split; [|apply listed_iff].
  unfold Cities.getAllCitiesIn.
  eapply Permutation_NoDup; [symmetry; apply sort_perm|].
  apply collected_NoDup. constructor.
Qed.



Lemma lookup_comm a b : RoutesDB.findDistance a b = RoutesDB.findDistance b a.
Proof.
  unfold RoutesDB.findDistance, RoutesDB.findDistanceIn.
  destruct a as [|x a], b as [|y b]; try reflexivity. apply scan_sym.
Qed.



Lemma routes_distances :
  Forall (fun r => (13 <=? RoutesDB.distanceKm r) = true
                   /\ (RoutesDB.distanceKm r <=? 1148) = true)
         RoutesDB.routes.
Proof.
  unfold RoutesDB.routes.
  repeat (apply Forall_cons; [split; vm_compute; reflexivity|]).
  apply Forall_nil.
Qed.

(** X7: every distance the lookup answers lies between 13 and 1148 km,
    the shortest and the longest route of the table; in particular it is a
    finite number above zero. *)
Theorem findDistance_range a b d :
  RoutesDB.findDistance a b = Some d ->
  (13 <=? d) = true /\ (d <=? 1148) = true.
Proof.
  unfold RoutesDB.findDistance, RoutesDB.findDistanceIn.
  destruct a as [|c a], b as [|c' b]; try discriminate.
  intros H. apply scan_Some in H.
  destruct H as [before [r [after [Heq [_ [_ <-]]]]]].
  pose proof routes_distances as Hd. rewrite Forall_forall in Hd.
  apply Hd. rewrite Heq. apply in_elt.
Qed.

Lemma findDistance_range_witness :
  (13 <=? 430) = true /\ (430 <=? 1148) = true.
Proof.
  apply (findDistance_range (JsString.js "Rio de Janeiro, RJ")
           (JsString.js "São Paulo, SP") 430).
  vm_compute. reflexivity.
Defined.

(** ** More exact results of binary64 arithmetic *)

Lemma nonneg_finite_class x :
  nonneg x -> (x <? infinity) = true ->
  (exists s, Prim2SF x = S754_zero s)
  \/ (exists m e, Prim2SF x = S754_finite false m e).
Proof.
  intros H0 Hfin. rewrite ltb_infinity_spec in Hfin by assumption.
  unfold nonneg in H0. rewrite leb_zero_spec in H0.
  destruct (Prim2SF x) as [s|s| |s m e]; try discriminate.
  - left. now exists s.
  - right. simpl in H0. apply negb_true_iff in H0. subst s. now exists m, e.
Qed.

Lemma positive_class c :
  (0 <? c) = true ->
  Prim2SF c = S754_infinity false
  \/ exists m e, Prim2SF c = S754_finite false m e.
Proof.
  rewrite ltb_zero_spec.
  destruct (Prim2SF c) as [s|s| |s m e]; try discriminate;
    simpl; intros H; apply negb_true_iff in H; subst s.
  - now left.
  - right. now exists m, e.
Qed.

(** A finite number minus itself is [+0]. *)
Lemma sub_self x : nonneg x -> (x <? infinity) = true -> x - x = 0.
Proof.
  intros H0 Hfin. apply Prim2SF_inj. rewrite sub_spec.
  change (Prim2SF 0) with (S754_zero false).
  destruct (nonneg_finite_class x H0 Hfin) as [[s ->]|[m [e ->]]].
  - destruct s; reflexivity.
  - unfold SF64sub, SFsub. now rewrite Z.sub_diag.
Qed.

(** Zero divided by a number above zero is [+0]. *)
Lemma zero_div c : (0 <? c) = true -> 0 / c = 0.
Proof.
  intros Hc. apply Prim2SF_inj. rewrite div_spec.
  change (Prim2SF 0) with (S754_zero false).
  destruct (positive_class c Hc) as [->|[m [e ->]]]; reflexivity.
Qed.

Lemma _round_nonneg4 v : nonneg v -> nonneg (Calculator._round v 4).
Proof.
  intros Hv. unfold Calculator._round.
  change (Math_pow10 4) with 10000.
  apply div_nonneg; [|split; reflexivity].
  apply Math_round_nonneg, mul_nonneg; [|split; reflexivity].
  apply add_nonneg; [assumption|reflexivity].
Qed.

Lemma nonneg_is_nan x : nonneg x -> is_nan x = false.
Proof.
  unfold nonneg. rewrite leb_zero_spec, is_nan_spec.
  destruct (Prim2SF x); try reflexivity; discriminate.
Qed.

Lemma accepted_nonneg x : is_nan x = false -> (x <? 0) = false -> nonneg x.
Proof.
  intros Hnan Hneg. unfold nonneg. rewrite leb_zero_spec.
  rewrite is_nan_spec in Hnan. rewrite ltb_spec in Hneg.
  change (Prim2SF 0) with (S754_zero false) in Hneg.
  destruct (Prim2SF x) as [s|s| |s m e]; try destruct s;
    try reflexivity; discriminate.
Qed.

(** ** The emission of a key of the table *)

Lemma emission_of_key factors d m :
  realFactors factors ->
  is_nan d = false -> (d <? 0) = false -> d <> infinity ->
  In m (Object_keys factors) ->
  exists e, Calculator.calculateEmission factors d m = Some e
            /\ (0 <=? e) = true.
Proof.
  intros Hreal Hnan Hneg Hd Hm.
  pose proof (calculateEmission_orderable factors d m Hreal Hd Hm) as H.
  destruct (own_In factors m Hm) as [f [Hown _]].
  unfold Calculator.calculateEmission, Number_isNaN, get in *.
  rewrite Hnan, Hneg, Hown in *. simpl in *.
  eexists. split; [reflexivity|exact H].
Qed.

(** X8: with a table of real factors, the emission of a key of the table
    at a distance that is neither NaN nor negative nor +Infinity is a
    number at or above zero: never [null], never NaN, never negative. *)
Theorem calculateEmission_accepted factors d m :
  realFactors factors ->
  is_nan d = false -> (d <? 0) = false -> d <> infinity ->
  In m (Object_keys factors) ->
  exists e, Calculator.calculateEmission factors d m = Some e
            /\ (0 <=? e) = true.
Proof. apply emission_of_key. Qed.

Lemma calculateEmission_accepted_witness :
  exists e, Calculator.calculateEmission EF 586 "bus" = Some e
            /\ (0 <=? e) = true.
Proof.
  apply (calculateEmission_accepted EF 586 "bus").
  - repeat constructor.
  - reflexivity.
  - reflexivity.
  - intros H. apply (f_equal (fun x => same x infinity)) in H.
    vm_compute in H. discriminate H.
  - simpl. auto.
Defined.

(** ** Carbon credits *)

(** X9: with a positive finite mass per credit, [calculateCarbonCredits]
    answers [null] exactly for NaN and for negative masses, and every other
    answer is a number at or above zero. *)
Theorem calculateCarbonCredits_value policy kg :
  positive_finite (CONFIG.KG_PER_CREDIT policy) ->
  (Calculator.calculateCarbonCredits policy kg = None <->
     is_nan kg = true \/ (kg <? 0) = true)
  /\ (forall c, Calculator.calculateCarbonCredits policy kg = Some c ->
        c = Calculator._round (kg / CONFIG.KG_PER_CREDIT policy) 4
        /\ (0 <=? c) = true).
Proof.
  intros Hp. unfold Calculator.calculateCarbonCredits, Number_isNaN.
  destruct (is_nan kg) eqn:Hnan; simpl.
  { split; [tauto|discriminate]. }
  destruct (kg <? 0) eqn:Hneg; simpl.
  { split; [tauto|discriminate]. }
  split.
  - split; [discriminate|]. intros [H|H]; discriminate.
  - intros c H. injection H as <-. split; [reflexivity|].
    apply _round_nonneg4, div_nonneg; [|assumption].
    now apply accepted_nonneg.
Qed.

Lemma calculateCarbonCredits_value_witness :
  (Calculator.calculateCarbonCredits CC 51.6 = None <->
     is_nan 51.6 = true \/ (51.6 <? 0) = true)
  /\ (forall c, Calculator.calculateCarbonCredits CC 51.6 = Some c ->
        c = Calculator._round (51.6 / 1000) 4 /\ (0 <=? c) = true).
Proof.
  apply (calculateCarbonCredits_value CC 51.6). split; reflexivity.
Defined.

(** ** The price estimate *)

(** X10: with positive finite prices, the three figures of a price estimate
    are numbers at or above zero, never NaN, for every credits value that is
    accepted (+Infinity included). *)
Theorem estimateCreditPrice_nonneg policy c p :
  positive_finite (CONFIG.PRICE_MIN_BRL policy) ->
  positive_finite (CONFIG.PRICE_MAX_BRL policy) ->
  Calculator.estimateCreditPrice policy c = Some p ->
  (0 <=? Calculator.min p) = true
  /\ (0 <=? Calculator.max p) = true
  /\ (0 <=? Calculator.average p) = true.
Proof.
  intros Hmin Hmax. unfold Calculator.estimateCreditPrice, Number_isNaN.
  destruct (is_nan c) eqn:Hnan; simpl; [discriminate|].
  destruct (c <? 0) eqn:Hneg; simpl; [discriminate|].
  intros H. injection H as <-. cbn [Calculator.min Calculator.max Calculator.average].
  pose proof (accepted_nonneg c Hnan Hneg) as Hc.
  pose proof (mul_nonneg c _ Hc Hmin) as H1.
  pose proof (mul_nonneg c _ Hc Hmax) as H2.
  repeat split; apply _round_nonneg; try assumption.
  apply div_nonneg; [now apply add_nonneg|split; reflexivity].
Qed.

Lemma estimateCreditPrice_nonneg_witness :
  (0 <=? 2.58) = true /\ (0 <=? 7.74) = true /\ (0 <=? 5.16) = true.
Proof.
  apply (estimateCreditPrice_nonneg CC 0.0516
           {| Calculator.min := 2.58; Calculator.max := 7.74;
              Calculator.average := 5.16 |}).
  - split; reflexivity.
  - split; reflexivity.
  - vm_compute. reflexivity.
Defined.

(** ** Savings against oneself *)

Lemma _round_zero : Calculator._round 0 2 = 0.
Proof. vm_compute. reflexivity. Qed.

Lemma savings_self e :
  nonneg e -> (e <? infinity) = true ->
  Calculator.calculateSavings e e
  = Some {| Calculator.savedKg := 0;
            Calculator.percentage := if 0 <? e then Some 0 else None |}.
Proof.
  intros H0 Hfin. unfold Calculator.calculateSavings, Number_isNaN.
  rewrite (nonneg_is_nan e H0). simpl.
  rewrite (sub_self e H0 Hfin), _round_zero.
  destruct (0 <? e) eqn:Hpos; [|reflexivity].
  rewrite (zero_div e Hpos).
  change (0 * 100) with 0. now rewrite _round_zero.
Qed.

(** X11: the savings of a finite emission above zero against itself are
    0 kg and 0 percent; against a baseline of zero the percentage is
    [null]. *)
Theorem calculateSavings_self e :
  (0 <=? e) = true -> (e <? infinity) = true ->
  Calculator.calculateSavings e e
  = Some {| Calculator.savedKg := 0;
            Calculator.percentage := if 0 <? e then Some 0 else None |}.
Proof. apply savings_self. Qed.

Lemma calculateSavings_self_witness :
  Calculator.calculateSavings 51.6 51.6
  = Some {| Calculator.savedKg := 0; Calculator.percentage := Some 0 |}.
Proof.
  apply (calculateSavings_self 51.6); reflexivity.
Defined.

(** ** The comparison at a rejected distance *)

Section SortIdentity.
Context {A : Type}.
Variable comparefn : A -> A -> float.

Lemma fold_insert_id l : forall acc,
  (forall x y, In x l -> In y (acc ++ l) -> (comparefn x y <? 0) = false) ->
  fold_left (fun sorted x => JsArray.insert comparefn x sorted) l acc
  = acc ++ l.
Proof.
  induction l as [|x l IH]; intros acc H; simpl.
  - now rewrite app_nil_r.
  - rewrite insert_last.
    + rewrite IH; [now rewrite <- app_assoc|].
      intros x' y Hx' Hy. apply H; [now right|].
      now rewrite <- app_assoc in Hy.
    + intros y Hy. apply H; [now left|]. apply in_or_app. now left.
Qed.

Lemma sort_id l :
  (forall x y, In x l -> In y l -> (comparefn x y <? 0) = false) ->
  JsArray.sort comparefn l = l.
Proof. intros H. unfold JsArray.sort. now rewrite fold_insert_id. Qed.
End SortIdentity.

(** X12: at a distance that is NaN or negative, the comparison is the list
    of the keys of the table in the order of the table, every entry with a
    [null] emission and a [null] percentage. *)
Theorem calculateAllModes_rejected factors d :
  is_nan d = true \/ (d <? 0) = true ->
  Calculator.calculateAllModes factors d
  = map (fun m => {| Calculator.mode := m;
                     Calculator.emission := None;
                     Calculator.percentageVsCar := None |})
        (Object_keys factors).
Proof.
  intros H. unfold Calculator.calculateAllModes.
  assert (E : map (Calculator.entryFor factors d
                     (Calculator.referenceEmission factors d))
                  (Object_keys factors)
              = map (fun m => {| Calculator.mode := m;
                                 Calculator.emission := None;
                                 Calculator.percentageVsCar := None |})
                    (Object_keys factors)).
  { apply map_ext. intros m. unfold Calculator.entryFor.
    now rewrite (calculateEmission_rejects factors d m H). }
  rewrite E. apply sort_id. intros x y Hx Hy.
  apply in_map_iff in Hx. destruct Hx as [m [<- _]].
  apply in_map_iff in Hy. destruct Hy as [m' [<- _]]. reflexivity.
Qed.

Lemma calculateAllModes_rejected_witness :
  Calculator.calculateAllModes EF (-5)
  = map (fun m => {| Calculator.mode := m;
                     Calculator.emission := None;
                     Calculator.percentageVsCar := None |})
        (Object_keys EF).
Proof.
  apply (calculateAllModes_rejected EF (-5)). right. reflexivity.
Defined.

(** ** The percentages of the comparison *)

Lemma percentage_nonneg e c :
  nonneg e -> positive_finite c ->
  nonneg (Calculator._round (e / c * 100) 2).
Proof.
  intros He Hc. apply _round_nonneg, mul_nonneg; [|split; reflexivity].
  now apply div_nonneg.
Qed.

Lemma reference_accepted factors d c :
  Calculator.referenceEmission factors d = Some c ->
  is_nan d = false /\ (d <? 0) = false.
Proof.
  unfold Calculator.referenceEmission, Calculator.calculateEmission,
    Number_isNaN.
  destruct (includes _ _); [|discriminate].
  destruct (is_nan d); simpl; [discriminate|].
  destruct (d <? 0); simpl; [discriminate|]. auto.
Qed.

(** X13: with real factors and a distance other than +Infinity at which
    the reference emission is a positive finite number, every entry of the
    comparison has a percentage, a number at or above zero; and at a
    distance above zero the entry of a mode whose factor is 0 has a
    percentage of exactly 0. *)
Theorem percentageVsCar_nonneg factors d c :
  realFactors factors -> d <> infinity ->
  Calculator.referenceEmission factors d = Some c ->
  positive_finite c ->
  Forall (fun en =>
            (exists p, Calculator.percentageVsCar en = Some p
                       /\ (0 <=? p) = true)
            /\ ((0 <? d) = true -> own factors (Calculator.mode en) = Some 0 ->
                Calculator.emission en = Some 0
                /\ Calculator.percentageVsCar en = Some 0))
         (Calculator.calculateAllModes factors d).
Proof.
  intros Hreal Hd Href Hc.
  destruct (reference_accepted factors d c Href) as [Hnan Hneg].
  apply sort_Forall. apply Forall_forall. intros en Hen.
  apply in_map_iff in Hen. destruct Hen as [m [<- Hm]].
  destruct (emission_of_key factors d m Hreal Hnan Hneg Hd Hm)
    as [e [He He0]].
  unfold Calculator.entryFor.
  cbn [Calculator.percentageVsCar Calculator.emission Calculator.mode].
  rewrite Href, He. destruct Hc as [Hpos Hfin]. rewrite Hpos. split.
  - eexists. split; [reflexivity|].
    apply percentage_nonneg; [exact He0|now split].
  - intros Hdpos Hown.
    destruct (accepted_distance d Hnan Hneg Hd) as [_ Hdfin].
    unfold Calculator.calculateEmission, Number_isNaN, get in He.
    rewrite Hnan, Hneg, Hown in He. simpl in He.
    rewrite (mul_zero_r d Hdpos Hdfin), _round_zero in He.
    injection He as <-.
    rewrite (zero_div c Hpos). change (0 * 100) with 0.
    now rewrite _round_zero.
Qed.

Lemma percentageVsCar_nonneg_witness :
  Forall (fun en =>
            (exists p, Calculator.percentageVsCar en = Some p
                       /\ (0 <=? p) = true)
            /\ ((0 <? 430) = true -> own EF (Calculator.mode en) = Some 0 ->
                Calculator.emission en = Some 0
                /\ Calculator.percentageVsCar en = Some 0))
         (Calculator.calculateAllModes EF 430).
Proof.
  apply (percentageVsCar_nonneg EF 430 51.6).
  - repeat constructor.
  - intros H. apply (f_equal (fun x => same x infinity)) in H.
    vm_compute in H. discriminate H.
  - vm_compute. reflexivity.
  - split; reflexivity.
Defined.

(** ** The escaping of text *)

Lemma escapeChar_cases c :
  (c = 38%N /\ UI.escapeChar c = [38; 97; 109; 112; 59]%N)
  \/ (c = 60%N /\ UI.escapeChar c = [38; 108; 116; 59]%N)
  \/ (c = 62%N /\ UI.escapeChar c = [38; 103; 116; 59]%N)
  \/ (c = 34%N /\ UI.escapeChar c = [38; 113; 117; 111; 116; 59]%N)
  \/ (c = 39%N /\ UI.escapeChar c = [38; 35; 51; 57; 59]%N)
  \/ (c = 96%N /\ UI.escapeChar c = [38; 35; 57; 54; 59]%N)
  \/ ((c <> 38 /\ c <> 60 /\ c <> 62 /\ c <> 34 /\ c <> 39 /\ c <> 96)%N
      /\ UI.escapeChar c = [c]).
Proof.
  unfold UI.escapeChar.
  destruct (N.eqb_spec c 38); [left; split; [assumption|reflexivity]|right].
  destruct (N.eqb_spec c 60); [left; split; [assumption|reflexivity]|right].
  destruct (N.eqb_spec c 62); [left; split; [assumption|reflexivity]|right].
  destruct (N.eqb_spec c 34); [left; split; [assumption|reflexivity]|right].
  destruct (N.eqb_spec c 39); [left; split; [assumption|reflexivity]|right].
  destruct (N.eqb_spec c 96); [left; split; [assumption|reflexivity]|right].
  auto 10.
Qed.

Ltac escape_cases c H :=
  destruct (escapeChar_cases c)
    as [[? H]|[[? H]|[[? H]|[[? H]|[[? H]|[[? H]|[? H]]]]]]].

(** X14: the text [escapeHtml] returns holds no angle bracket, no double
    quote, no apostrophe and no backquote, whatever the input; [null]
    becomes the empty text. *)
Theorem escapeHtml_safe s c :
  In c (UI.escapeHtml (Some s)) ->
  (c <> 60 /\ c <> 62 /\ c <> 34 /\ c <> 39 /\ c <> 96)%N.
Proof.
  simpl. intros H. apply in_flat_map in H. destruct H as [x [_ H]].
  escape_cases x E; rewrite E in H; simpl in H;
    repeat (destruct H as [H|H]; [subst c; try lia|]);
    try contradiction; try tauto.
Qed.

Lemma escapeHtml_safe_witness :
  (38 <> 60 /\ 38 <> 62 /\ 38 <> 34 /\ 38 <> 39 /\ 38 <> 96)%N.
Proof.
  apply (escapeHtml_safe (JsString.js "<b>") 38%N).
  vm_compute. left. reflexivity.
Defined.

(** X15: [escapeHtml] loses nothing: two texts with the same escaped form
    are the same text. *)
Theorem escapeHtml_injective s t :
  UI.escapeHtml (Some s) = UI.escapeHtml (Some t) -> s = t.
Proof.
  simpl. revert t. induction s as [|c s IH]; intros [|d t] H; simpl in H.
  - reflexivity.
  - exfalso. escape_cases d E; rewrite E in H; discriminate H.
  - exfalso. escape_cases c E; rewrite E in H; discriminate H.
  - escape_cases c Ec; escape_cases d Ed; rewrite Ec, Ed in H;
      simpl in H; subst;
      first [ discriminate H
            | injection H as H; f_equal; apply IH; exact H
            | injection H; intros; exfalso; lia
            | injection H as -> H; f_equal; apply IH; exact H ].
Qed.

Lemma escapeHtml_injective_witness :
  JsString.js "a<b" = JsString.js "a<b".
Proof.
  apply escapeHtml_injective. reflexivity.
Defined.

Lemma escapeChar_length c : (1 <= List.length (UI.escapeChar c))%nat.
Proof. escape_cases c E; rewrite E; simpl; lia. Qed.

Lemma escapeHtml_length s :
  (List.length s <= List.length (flat_map UI.escapeChar s))%nat.
Proof.
  induction s as [|c s IH]; simpl; [lia|].
  rewrite length_app. pose proof (escapeChar_length c). lia.
Qed.

(** X16: [escapeHtml] returns a text unchanged exactly when the text holds
    none of the six characters it replaces. *)
Theorem escapeHtml_fixed s :
  UI.escapeHtml (Some s) = s <->
  Forall (fun c => c <> 38 /\ c <> 60 /\ c <> 62 /\ c <> 34 /\ c <> 39
                   /\ c <> 96)%N s.
Proof.
  simpl. induction s as [|c s IH]; simpl.
  - split; [constructor|reflexivity].
  - split.
    + intros H.
      assert (Hlen : List.length (UI.escapeChar c ++ flat_map UI.escapeChar s)
                     = S (List.length s)) by now rewrite H.
      rewrite length_app in Hlen. pose proof (escapeHtml_length s) as Hs.
      escape_cases c E; rewrite E in *; simpl in Hlen; try lia.
      simpl in H. injection H as H. constructor; [assumption|now apply IH].
    + intros H. inversion H as [|? ? Hc Hs]; subst.
      escape_cases c E; try (exfalso; intuition congruence).
      rewrite E. simpl. f_equal. now apply IH.
Qed.

(** ** The bars of the comparison *)

Lemma Math_min_100_le y : (100 <? UI.Math_min 100 y) = false.
Proof.
  unfold UI.Math_min. change (is_nan 100) with false. simpl orb.
  destruct (is_nan y); [reflexivity|].
  destruct (100 <? y) eqn:E1; [reflexivity|].
  destruct (y <? 100) eqn:E2; [exact E1|].
  change (get_sign 100) with false. exact E1.
Qed.

(** X17: the bar of an entry is never red: the width is capped at 100, so
    the test [widthPct > 100] fails for every entry and every maximum. *)
Theorem barColor_never_red item maxEmission :
  UI.barColor (UI.widthPct item maxEmission) <> "#ef4444".
Proof.
  unfold UI.barColor, UI.widthPct. rewrite Math_min_100_le.
  destruct (75 <? _); [discriminate|].
  destruct (25 <? _); discriminate.
Qed.

Lemma Math_max_cases a b :
  is_nan a = false -> is_nan b = false ->
  UI.Math_max a b = a \/ UI.Math_max a b = b.
Proof.
  intros Ha Hb. unfold UI.Math_max. rewrite Ha, Hb. simpl.
  destruct (a <? b); [now right|].
  destruct (b <? a); [now left|].
  destruct (get_sign a); auto.
Qed.

Lemma fold_max_finite l : forall acc,
  nonneg acc -> (acc <? infinity) = true ->
  Forall Props.finiteEmission l ->
  let m := fold_left (fun max item =>
                        match Calculator.emission item with
                        | Some e => UI.Math_max max e
                        | None => max
                        end) l acc in
  nonneg m /\ (m <? infinity) = true.
Proof.
  induction l as [|en l IH]; intros acc H0 Hfin Hl; simpl; [auto|].
  inversion Hl as [|? ? Hen Hl']; subst.
  apply IH; try assumption; unfold Props.finiteEmission in Hen;
    destruct (Calculator.emission en) as [e|]; try assumption;
    destruct Hen as [He0 Hefin];
    destruct (Math_max_cases acc e (nonneg_is_nan _ H0) (nonneg_is_nan _ He0))
      as [-> | ->]; assumption.
Qed.

Lemma nonzero_positive x : nonneg x -> (x =? 0) = false -> (0 <? x) = true.
Proof.
  unfold nonneg. rewrite leb_zero_spec, ltb_zero_spec, eqb_spec.
  change (Prim2SF 0) with (S754_zero false).
  destruct (Prim2SF x) as [s|s| |s m e]; try destruct s;
    try reflexivity; discriminate.
Qed.

Lemma maxEmission_positive l :
  Forall Props.finiteEmission l -> positive_finite (UI.maxEmission l).
Proof.
  intros Hl. unfold UI.maxEmission.
  destruct (fold_max_finite l 0 eq_refl eq_refl Hl) as [H0 Hfin].
  destruct (_ =? 0) eqn:E; [split; reflexivity|].
  split; [now apply nonzero_positive|assumption].
Qed.

Lemma Math_min_100_range y :
  nonneg y ->
  nonneg (UI.Math_min 100 y) /\ (UI.Math_min 100 y <=? 100) = true.
Proof.
  intros Hy. unfold UI.Math_min.
  change (is_nan 100) with false. rewrite (nonneg_is_nan y Hy). simpl.
  destruct (100 <? y) eqn:E1; [split; reflexivity|].
  assert (Hle : (y <=? 100) = true)
    by (apply ltb_false_leb; [reflexivity|assumption|exact E1]).
  destruct (y <? 100); [now split|].
  change (get_sign 100) with false. now split.
Qed.

(** X18: in a comparison whose emissions are [null] or finite numbers at
    or above zero, the maximum used as the scale is a positive finite
    number, the width of every bar lies between 0 and 100, and an entry
    whose emission is that maximum has a width of exactly 100. *)
Theorem widthPct_range modesArray item :
  Forall Props.finiteEmission modesArray ->
  Props.finiteEmission item ->
  (0 <? UI.maxEmission modesArray) = true
  /\ (UI.maxEmission modesArray <? infinity) = true
  /\ (0 <=? UI.widthPct item (UI.maxEmission modesArray)) = true
  /\ (UI.widthPct item (UI.maxEmission modesArray) <=? 100) = true
  /\ (Calculator.emission item = Some (UI.maxEmission modesArray) ->
      UI.widthPct item (UI.maxEmission modesArray) = 100).
Proof.
  intros Hl Hitem.
  pose proof (maxEmission_positive modesArray Hl) as Hmax.
  destruct Hmax as [Hpos Hfin].
  split; [assumption|]. split; [assumption|].
  assert (Hy : forall e, nonneg e ->
                 nonneg (Math_round (e / UI.maxEmission modesArray * 100))).
  { intros e He. apply Math_round_nonneg, mul_nonneg; [|split; reflexivity].
    apply div_nonneg; [assumption|now split]. }
  unfold UI.widthPct, Props.finiteEmission in *.
  destruct (Calculator.emission item) as [e|].
  - destruct Hitem as [He _].
    destruct (Math_min_100_range _ (Hy e He)) as [H1 H2].
    split; [exact H1|]. split; [exact H2|].
    intros H. injection H as ->.
    rewrite (div_self _ Hpos Hfin). vm_compute. reflexivity.
  - destruct (Math_min_100_range _ (Hy 0 eq_refl)) as [H1 H2].
    split; [exact H1|]. split; [exact H2|]. discriminate.
Qed.

Lemma widthPct_range_witness :
  (0 <? UI.maxEmission (Calculator.calculateAllModes EF 430)) = true
  /\ (UI.maxEmission (Calculator.calculateAllModes EF 430) <? infinity) = true
  /\ (0 <=? UI.widthPct
              {| Calculator.mode := "bus"; Calculator.emission := Some 38.27;
                 Calculator.percentageVsCar := Some 74.17 |}
              (UI.maxEmission (Calculator.calculateAllModes EF 430))) = true
  /\ (UI.widthPct
        {| Calculator.mode := "bus"; Calculator.emission := Some 38.27;
           Calculator.percentageVsCar := Some 74.17 |}
        (UI.maxEmission (Calculator.calculateAllModes EF 430)) <=? 100) = true
  /\ (Calculator.emission
        {| Calculator.mode := "bus"; Calculator.emission := Some 38.27;
           Calculator.percentageVsCar := Some 74.17 |}
      = Some (UI.maxEmission (Calculator.calculateAllModes EF 430)) ->
      UI.widthPct
        {| Calculator.mode := "bus"; Calculator.emission := Some 38.27;
           Calculator.percentageVsCar := Some 74.17 |}
        (UI.maxEmission (Calculator.calculateAllModes EF 430)) = 100).
Proof.
  apply widthPct_range.
  - vm_compute. repeat constructor.
  - vm_compute. split; reflexivity.
Defined.

(** ** The loading state of the submit button *)

(** X19: on a button with a label and no saved text, [hideLoading] after
    [showLoading], or after two [showLoading] in a row, gives back the
    label, enables the button and leaves no saved text; on a button whose
    label is empty the spinner stays. *)
Theorem loading_round_trip b :
  UI.hasOriginalText b = false ->
  (UI.innerHTML b <> [] ->
   UI.hideLoading (UI.showLoading b)
   = {| UI.disabled := false; UI.innerHTML := UI.innerHTML b;
        UI.originalText := None |}
   /\ UI.hideLoading (UI.showLoading (UI.showLoading b))
      = UI.hideLoading (UI.showLoading b))
  /\ (UI.innerHTML b = [] ->
      UI.innerHTML (UI.hideLoading (UI.showLoading b)) = UI.spinner).
Proof.
  intros Hb. destruct b as [dis html orig]. simpl in *. split.
  - intros Hhtml. unfold UI.showLoading, UI.hideLoading. simpl.
    rewrite Hb. unfold UI.hasOriginalText. simpl.
    destruct html as [|c html]; [contradiction|]. simpl. split; reflexivity.
  - intros ->. unfold UI.showLoading, UI.hideLoading. simpl.
    rewrite Hb. reflexivity.
Qed.

Lemma loading_round_trip_witness :
  (JsString.js "Calcular" <> [] ->
   UI.hideLoading
     (UI.showLoading {| UI.disabled := false;
                        UI.innerHTML := JsString.js "Calcular";
                        UI.originalText := None |})
   = {| UI.disabled := false; UI.innerHTML := JsString.js "Calcular";
        UI.originalText := None |}
   /\ UI.hideLoading
        (UI.showLoading
           (UI.showLoading {| UI.disabled := false;
                              UI.innerHTML := JsString.js "Calcular";
                              UI.originalText := None |}))
      = UI.hideLoading
          (UI.showLoading {| UI.disabled := false;
                             UI.innerHTML := JsString.js "Calcular";
                             UI.originalText := None |}))
  /\ (JsString.js "Calcular" = [] ->
      UI.innerHTML
        (UI.hideLoading
           (UI.showLoading {| UI.disabled := false;
                              UI.innerHTML := JsString.js "Calcular";
                              UI.originalText := None |}))
      = UI.spinner).
Proof.
  apply (loading_round_trip
           {| UI.disabled := false; UI.innerHTML := JsString.js "Calcular";
              UI.originalText := None |}).
  reflexivity.
Defined.

(** ** The autofill of the distance field *)

Lemma trimStart_idem s :
  JsString.trimStart (JsString.trimStart s) = JsString.trimStart s.
Proof.
  induction s as [|c s IH]; simpl; [reflexivity|].
  destruct (JsString.isWhiteSpace c) eqn:E; [exact IH|].
  simpl. now rewrite E.
Qed.

Lemma trimStart_fixed c s :
  JsString.isWhiteSpace c = false -> JsString.trimStart (c :: s) = c :: s.
Proof. intros H. simpl. now rewrite H. Qed.

Lemma trimStart_head s :
  JsString.trimStart s = []
  \/ exists c s', JsString.trimStart s = c :: s'
                  /\ JsString.isWhiteSpace c = false.
Proof.
  induction s as [|c s IH]; simpl; [now left|].
  destruct (JsString.isWhiteSpace c) eqn:E; [exact IH|].
  right. now exists c, s.
Qed.

Lemma trimEnd_head c s :
  JsString.isWhiteSpace c = false ->
  exists s', JsString.trimEnd (c :: s) = c :: s'.
Proof.
  intros Hc. unfold JsString.trimEnd. simpl rev. rewrite trimStart_app.
  destruct (JsString.trimStart (rev s)) as [|x l].
  - simpl. rewrite Hc. now exists [].
  - rewrite rev_app_distr. simpl. now eexists.
Qed.

Lemma trimEnd_idem s :
  JsString.trimEnd (JsString.trimEnd s) = JsString.trimEnd s.
Proof.
  unfold JsString.trimEnd. now rewrite rev_involutive, trimStart_idem.
Qed.

Lemma trim_idem s : JsString.trim (JsString.trim s) = JsString.trim s.
Proof.
  unfold JsString.trim.
  destruct (trimStart_head s) as [->|[c [s' [-> Hc]]]]; [reflexivity|].
  destruct (trimEnd_head c s' Hc) as [t E]. rewrite E.
  rewrite (trimStart_fixed c t Hc), <- E. apply trimEnd_idem.
Qed.

Lemma trim_nil_blank s : JsString.trim s = [] -> Props.blank s.
Proof.
  unfold JsString.trim.
  destruct (trimStart_head s) as [H|[c [s' [H Hc]]]].
  - intros _. clear -H. unfold Props.blank.
    induction s as [|c s IH]; [constructor|].
    simpl in H. destruct (JsString.isWhiteSpace c) eqn:E; [|discriminate].
    constructor; auto.
  - rewrite H. destruct (trimEnd_head c s' Hc) as [t E]. now rewrite E.
Qed.

(** The lookup does the trimming of its caller over again. *)
Lemma lookup_trimmed a b :
  RoutesDB.findDistance (JsString.trim a) (JsString.trim b)
  = RoutesDB.findDistance a b.
Proof.
  destruct (JsString.trim a) as [|x ta] eqn:Ea.
  { rewrite (lookup_blank a b); [reflexivity|]. left. now apply trim_nil_blank. }
  destruct (JsString.trim b) as [|y tb] eqn:Eb.
  { rewrite (lookup_blank a b); [reflexivity|]. right.
    now apply trim_nil_blank. }
  unfold RoutesDB.findDistance, RoutesDB.findDistanceIn.
  rewrite <- Ea, <- Eb, !trim_idem, Ea, Eb.
  destruct a as [|c a]; [discriminate Ea|].
  destruct b as [|c' b]; [discriminate Eb|]. reflexivity.
Qed.

Lemma trimmed_value (s : JsString.jsstring) :
  match s with [] => [] | c :: l => JsString.trim (c :: l) end
  = JsString.trim s.
Proof. now destruct s. Qed.

Ltac form_simpl :=
  cbv [Autofill.setHelper Autofill.clearDistance Autofill.setDistance
       Autofill.distanceValue Autofill.distanceReadOnly Autofill.helperText
       Autofill.helperColor Autofill.originValue Autofill.destinationValue
       Autofill.manualChecked].

Section AutofillFacts.
Variable Number_toString : float -> JsString.jsstring.

Lemma tryAutofill_distance f :
  Autofill.manualChecked f = false ->
  Autofill.distanceReadOnly (Autofill.tryAutofill Number_toString f) = true
  /\ Autofill.distanceValue (Autofill.tryAutofill Number_toString f)
     = match RoutesDB.findDistance (Autofill.originValue f)
               (Autofill.destinationValue f) with
       | Some d => Number_toString d
       | None => []
       end.
Proof.
  intros Hm. unfold Autofill.tryAutofill. rewrite Hm.
  rewrite <- (lookup_trimmed (Autofill.originValue f)
                (Autofill.destinationValue f)).
  destruct (Autofill.originValue f) as [|c o] eqn:Eo.
  { change (JsString.trim []) with (@nil N). form_simpl. auto. }
  destruct (Autofill.destinationValue f) as [|c' d] eqn:Ed.
  { change (JsString.trim []) with (@nil N).
    rewrite (lookup_blank _ []) by (right; constructor).
    destruct (JsString.trim (c :: o)); form_simpl; auto. }
  destruct (JsString.trim (c :: o)) as [|x to] eqn:Eto.
  { form_simpl. auto. }
  destruct (JsString.trim (c' :: d)) as [|y td] eqn:Etd.
  { rewrite (lookup_blank _ []) by (right; constructor). form_simpl. auto. }
  destruct (RoutesDB.findDistance (x :: to) (y :: td)); form_simpl; auto.
Qed.

(** X20: the autofill leaves the form as it is in manual mode; outside
    manual mode it leaves the distance field read-only, holding the text of
    the distance that the lookup answers for the two names as typed, and
    nothing when the lookup answers [null]; it never touches the two names
    nor the checkbox. *)
Theorem tryAutofill_effect f :
  (Autofill.manualChecked f = true ->
   Autofill.tryAutofill Number_toString f = f)
  /\ (Autofill.manualChecked f = false ->
      Autofill.distanceReadOnly (Autofill.tryAutofill Number_toString f)
      = true
      /\ Autofill.distanceValue (Autofill.tryAutofill Number_toString f)
         = match RoutesDB.findDistance (Autofill.originValue f)
                   (Autofill.destinationValue f) with
           | Some d => Number_toString d
           | None => []
           end)
  /\ Autofill.originValue (Autofill.tryAutofill Number_toString f)
     = Autofill.originValue f
  /\ Autofill.destinationValue (Autofill.tryAutofill Number_toString f)
     = Autofill.destinationValue f
  /\ Autofill.manualChecked (Autofill.tryAutofill Number_toString f)
     = Autofill.manualChecked f.
Proof.
  split.
  { intros Hm. unfold Autofill.tryAutofill. now rewrite Hm. }
  split; [apply tryAutofill_distance|].
  unfold Autofill.tryAutofill. rewrite !trimmed_value.
  destruct (Autofill.manualChecked f) eqn:Hm; [auto|].
  destruct (JsString.trim (Autofill.originValue f)); [form_simpl; auto|].
  destruct (JsString.trim (Autofill.destinationValue f)); [form_simpl; auto|].
  destruct (RoutesDB.findDistance _ _); form_simpl; auto.
Qed.

(** X21: outside manual mode, exchanging the two names changes nothing of
    what the autofill writes: the distance field, its read-only flag and
    the helper line are the same. *)
Theorem tryAutofill_symmetric f g :
  Autofill.manualChecked f = false -> Autofill.manualChecked g = false ->
  Autofill.originValue g = Autofill.destinationValue f ->
  Autofill.destinationValue g = Autofill.originValue f ->
  Autofill.distanceValue (Autofill.tryAutofill Number_toString g)
  = Autofill.distanceValue (Autofill.tryAutofill Number_toString f)
  /\ Autofill.distanceReadOnly (Autofill.tryAutofill Number_toString g)
     = Autofill.distanceReadOnly (Autofill.tryAutofill Number_toString f)
  /\ Autofill.helperText (Autofill.tryAutofill Number_toString g)
     = Autofill.helperText (Autofill.tryAutofill Number_toString f)
  /\ Autofill.helperColor (Autofill.tryAutofill Number_toString g)
     = Autofill.helperColor (Autofill.tryAutofill Number_toString f).
Proof.
  intros Hf Hg Ho Hd. unfold Autofill.tryAutofill.
  rewrite Hf, Hg, Ho, Hd, !trimmed_value.
  destruct (JsString.trim (Autofill.originValue f)) as [|x o'],
    (JsString.trim (Autofill.destinationValue f)) as [|y d'];
    try (form_simpl; auto; fail).
  rewrite (lookup_comm (y :: d') (x :: o')).
  destruct (RoutesDB.findDistance (x :: o') (y :: d')); form_simpl; auto.
Qed.
End AutofillFacts.

Lemma tryAutofill_effect_witness :
  let f := {| Autofill.originValue := JsString.js "Recife, PE";
              Autofill.destinationValue := JsString.js " salvador, ba";
              Autofill.distanceValue := [];
              Autofill.distanceReadOnly := false;
              Autofill.manualChecked := false;
              Autofill.helperText := [];
              Autofill.helperColor := [] |} in
  Autofill.distanceReadOnly (Autofill.tryAutofill (fun _ => [48%N]) f) = true
  /\ Autofill.distanceValue (Autofill.tryAutofill (fun _ => [48%N]) f)
     = match RoutesDB.findDistance (Autofill.originValue f)
               (Autofill.destinationValue f) with
       | Some d => [48%N]
       | None => []
       end.
Proof.
  intros f.
  apply (proj1 (proj2 (tryAutofill_effect (fun _ => [48%N]) f))).
  reflexivity.
Defined.

Lemma tryAutofill_symmetric_witness :
  let f := {| Autofill.originValue := JsString.js "Recife, PE";
              Autofill.destinationValue := JsString.js "Salvador, BA";
              Autofill.distanceValue := [];
              Autofill.distanceReadOnly := false;
              Autofill.manualChecked := false;
              Autofill.helperText := [];
              Autofill.helperColor := [] |} in
  let g := {| Autofill.originValue := JsString.js "Salvador, BA";
              Autofill.destinationValue := JsString.js "Recife, PE";
              Autofill.distanceValue := [];
              Autofill.distanceReadOnly := false;
              Autofill.manualChecked := false;
              Autofill.helperText := [];
              Autofill.helperColor := [] |} in
  Autofill.distanceValue (Autofill.tryAutofill (fun _ => [48%N]) g)
  = Autofill.distanceValue (Autofill.tryAutofill (fun _ => [48%N]) f)
  /\ Autofill.distanceReadOnly (Autofill.tryAutofill (fun _ => [48%N]) g)
     = Autofill.distanceReadOnly (Autofill.tryAutofill (fun _ => [48%N]) f)
  /\ Autofill.helperText (Autofill.tryAutofill (fun _ => [48%N]) g)
     = Autofill.helperText (Autofill.tryAutofill (fun _ => [48%N]) f)
  /\ Autofill.helperColor (Autofill.tryAutofill (fun _ => [48%N]) g)
     = Autofill.helperColor (Autofill.tryAutofill (fun _ => [48%N]) f).
Proof.
  intros f g.
  apply (tryAutofill_symmetric (fun _ => [48%N]) f g); reflexivity.
Defined.

(** ** The submit handler *)

Lemma positive_accepted d :
  (0 <? d) = true ->
  is_nan d = false /\ (d <=? 0) = false /\ (d <? 0) = false.
Proof.
  rewrite ltb_zero_spec, is_nan_spec, leb_spec, ltb_spec.
  change (Prim2SF 0) with (S754_zero false).
  destruct (Prim2SF d) as [s|s| |s m e]; try discriminate;
    destruct s; try discriminate; auto.
Qed.

Lemma accepted_positive d :
  is_nan d = false -> (d <=? 0) = false -> (0 <? d) = true.
Proof.
  rewrite ltb_zero_spec, is_nan_spec, leb_spec.
  change (Prim2SF 0) with (S754_zero false).
  destruct (Prim2SF d) as [s|s| |s m e]; try discriminate;
    destruct s; try discriminate; auto.
Qed.

Lemma finite_not_infinity d : (d <? infinity) = true -> d <> infinity.
Proof. intros H ->. discriminate H. Qed.

Lemma EF_key_named t : In t (Object_keys EF) -> t <> "".
Proof.
  simpl. intros [<-|[<-|[<-|[<-|[]]]]]; discriminate.
Qed.

Lemma onFormSubmit_valid o dst d t :
  JsString.trim o <> [] -> JsString.trim dst <> [] ->
  (0 <? d) = true -> t <> "" ->
  App.onFormSubmit o dst d (Some t)
  = App.calculate (JsString.trim o) (JsString.trim dst) d t.
Proof.
  intros Ho Hd Hpos Ht. unfold App.onFormSubmit.
  destruct (positive_accepted d Hpos) as [Hnan [Hle _]].
  destruct (JsString.trim o) as [|x to]; [contradiction|].
  destruct (JsString.trim dst) as [|y td]; [contradiction|].
  rewrite Hnan, Hle. simpl orb. cbv iota.
  destruct t; [contradiction|reflexivity].
Qed.

(** X22: a submission with two names that are not blank, a finite distance
    above zero and one of the four modes of the table is shown, never
    refused and never failed, and nothing of what is shown is a fallback:
    the emission is a number at or above zero, the savings against the car
    are present, and the credits and the price are the ones the calculator
    computed from that emission. *)
Theorem onFormSubmit_shown o dst d t :
  JsString.trim o <> [] -> JsString.trim dst <> [] ->
  (0 <? d) = true -> (d <? infinity) = true ->
  In t (Object_keys EF) ->
  exists e car s c p,
    Calculator.calculateEmission EF d t = Some e
    /\ (0 <=? e) = true
    /\ Calculator.calculateEmission EF d "car" = Some car
    /\ Calculator.calculateSavings e car = Some s
    /\ Calculator.calculateCarbonCredits CC e = Some c
    /\ Calculator.estimateCreditPrice CC c = Some p
    /\ (c =? App.orZero (Some c)) = true
    /\ App.onFormSubmit o dst d (Some t)
       = App.Shown
           {| App.resultsData :=
                {| App.origin := JsString.trim o;
                   App.destination := JsString.trim dst;
                   App.distance := d; App.emission := e; App.mode := t;
                   App.savings := Some s |};
              App.comparisonArray := Calculator.calculateAllModes EF d;
              App.creditsData :=
                {| App.credits := App.orZero (Some c); App.price := p |} |}.
Proof.
  intros Ho Hdst Hpos Hfin Ht.
  destruct (positive_accepted d Hpos) as [Hnan [_ Hneg]].
  pose proof (finite_not_infinity d Hfin) as Hd.
  destruct (emission_of_key EF d t EF_real Hnan Hneg Hd Ht) as [e [He He0]].
  assert (Hcar : In "car" (Object_keys EF)) by (simpl; auto).
  destruct (emission_of_key EF d "car" EF_real Hnan Hneg Hd Hcar)
    as [car [Hc Hc0]].
  pose proof (nonneg_is_nan e He0) as Hen.
  pose proof (nonneg_is_nan car Hc0) as Hcn.
  pose proof (nonneg_not_neg e He0) as Heneg.
  assert (Hs : Calculator.calculateSavings e car
               = Some {| Calculator.savedKg := Calculator._round (car - e) 2;
                         Calculator.percentage :=
                           if 0 <? car
                           then Some (Calculator._round
                                        (Calculator._round (car - e) 2 / car
                                         * 100) 2)
                           else None |}).
  { unfold Calculator.calculateSavings, Number_isNaN. now rewrite Hen, Hcn. }
  assert (Hcr : Calculator.calculateCarbonCredits CC e
                = Some (Calculator._round (e / 1000) 4)).
  { unfold Calculator.calculateCarbonCredits, Number_isNaN.
    now rewrite Hen, Heneg. }
  assert (Hc4 : nonneg (Calculator._round (e / 1000) 4)).
  { apply _round_nonneg4, div_nonneg; [assumption|split; reflexivity]. }
  set (c := Calculator._round (e / 1000) 4) in *.
  assert (Hp : exists p, Calculator.estimateCreditPrice CC c = Some p).
  { unfold Calculator.estimateCreditPrice, Number_isNaN.
    rewrite (nonneg_is_nan c Hc4), (nonneg_not_neg c Hc4). simpl. eauto. }
  destruct Hp as [p Hp].
  eexists e, car, _, c, p.
  split; [exact He|]. split; [exact He0|]. split; [exact Hc|].
  split; [exact Hs|]. split; [exact Hcr|]. split; [exact Hp|].
  split.
  - unfold App.orZero. rewrite (nonneg_is_nan c Hc4). simpl.
    destruct (c =? 0) eqn:E; [exact E|].
    pose proof (nonneg_is_nan c Hc4) as H. unfold is_nan in H.
    now apply negb_false_iff in H.
  - rewrite (onFormSubmit_valid o dst d t Ho Hdst Hpos (EF_key_named t Ht)).
    unfold App.calculate. rewrite He, Hc, Hs, Hcr, Hp. reflexivity.
Qed.

Lemma onFormSubmit_shown_witness :
  exists e car s c p,
    Calculator.calculateEmission EF 430 "bus" = Some e
    /\ (0 <=? e) = true
    /\ Calculator.calculateEmission EF 430 "car" = Some car
    /\ Calculator.calculateSavings e car = Some s
    /\ Calculator.calculateCarbonCredits CC e = Some c
    /\ Calculator.estimateCreditPrice CC c = Some p
    /\ (c =? App.orZero (Some c)) = true
    /\ App.onFormSubmit (JsString.js "São Paulo, SP")
         (JsString.js "Rio de Janeiro, RJ") 430 (Some "bus")
       = App.Shown
           {| App.resultsData :=
                {| App.origin := JsString.trim (JsString.js "São Paulo, SP");
                   App.destination :=
                     JsString.trim (JsString.js "Rio de Janeiro, RJ");
                   App.distance := 430; App.emission := e; App.mode := "bus";
                   App.savings := Some s |};
              App.comparisonArray := Calculator.calculateAllModes EF 430;
              App.creditsData :=
                {| App.credits := App.orZero (Some c); App.price := p |} |}.
Proof.
  apply (onFormSubmit_shown (JsString.js "São Paulo, SP")
           (JsString.js "Rio de Janeiro, RJ") 430 "bus").
  - vm_compute. discriminate.
  - vm_compute. discriminate.
  - reflexivity.
  - reflexivity.
  - simpl. auto.
Defined.

Lemma calculate_Failed o dst d t :
  (0 <? d) = true ->
  (App.calculate o dst d t = App.Failed <-> get EF t = Undefined).
Proof.
  intros Hpos. destruct (positive_accepted d Hpos) as [Hnan [_ Hneg]].
  unfold App.calculate, Calculator.calculateEmission at 1, Number_isNaN.
  rewrite Hnan, Hneg. simpl orb. cbv iota.
  destruct (get EF t); split; intros H; try discriminate H; reflexivity.
Qed.

(** X23: a submission fails (the alert of the [catch] block) exactly when
    it passes the validation with a transport mode that is not a property of
    the factor table; a blank name, a distance that is NaN or not above zero
    and a missing mode are refused before, and no other input fails. *)
Theorem onFormSubmit_failed o dst d selected :
  App.onFormSubmit o dst d selected = App.Failed <->
  JsString.trim o <> [] /\ JsString.trim dst <> []
  /\ is_nan d = false /\ (d <=? 0) = false
  /\ exists t, selected = Some t /\ t <> "" /\ get EF t = Undefined.
Proof.
  unfold App.onFormSubmit.
  destruct (JsString.trim o) as [|x to];
    [split; [discriminate|intros [H _]; contradiction]|].
  destruct (JsString.trim dst) as [|y td];
    [split; [discriminate|intros [_ [H _]]; contradiction]|].
  destruct (is_nan d) eqn:Hnan; simpl orb; cbv iota;
    [split; [discriminate|intros [_ [_ [H _]]]; discriminate]|].
  destruct (d <=? 0) eqn:Hle;
    [split; [discriminate|intros [_ [_ [_ [H _]]]]; discriminate]|].
  pose proof (accepted_positive d Hnan Hle) as Hpos.
  destruct selected as [[|a t]|].
  - split; [discriminate|].
    intros [_ [_ [_ [_ [t [Ht [Hne _]]]]]]]. injection Ht as <-.
    contradiction.
  - rewrite (calculate_Failed _ _ d _ Hpos). split.
    + intros H. repeat (split; [discriminate || reflexivity|]).
      exists (String a t). repeat split; [discriminate|assumption].
    + intros [_ [_ [_ [_ [t' [Ht [_ H]]]]]]]. now injection Ht as <-.
  - split; [discriminate|].
    intros [_ [_ [_ [_ [t [Ht _]]]]]]. discriminate.
Qed.

(** X24: when the mode chosen is "car" and the emission shown is finite,
    the savings shown are 0 kg, with 0 percent when the emission is above
    zero and no percentage when it is zero. *)
Theorem onFormSubmit_car o dst d r :
  App.onFormSubmit o dst d (Some "car") = App.Shown r ->
  (App.emission (App.resultsData r) <? infinity) = true ->
  App.savings (App.resultsData r)
  = Some {| Calculator.savedKg := 0;
            Calculator.percentage :=
              if 0 <? App.emission (App.resultsData r)
              then Some 0 else None |}.
Proof.
  unfold App.onFormSubmit.
  destruct (JsString.trim o) as [|x to]; [discriminate|].
  destruct (JsString.trim dst) as [|y td]; [discriminate|].
  destruct (is_nan d) eqn:Hnan; simpl orb; cbv iota; [discriminate|].
  destruct (d <=? 0) eqn:Hle; [discriminate|].
  pose proof (accepted_positive d Hnan Hle) as Hpos.
  destruct (positive_accepted d Hpos) as [_ [_ Hneg]].
  unfold App.calculate.
  destruct (Calculator.calculateEmission EF d "car") as [e|] eqn:He;
    [|discriminate].
  intros H. injection H as <-. cbn [App.resultsData App.emission App.savings].
  intros Hfin.
  assert (Hd : d <> infinity).
  { intros ->. vm_compute in He. injection He as <-. discriminate Hfin. }
  assert (Hcar : In "car" (Object_keys EF)) by (simpl; auto).
  destruct (emission_of_key EF d "car" EF_real Hnan Hneg Hd Hcar)
    as [e' [He' He0]].
  rewrite He in He'. injection He' as <-.
  now apply savings_self.
Qed.

Lemma onFormSubmit_car_witness :
  App.savings
    (App.resultsData
       {| App.resultsData :=
            {| App.origin := JsString.js "A"; App.destination := JsString.js "B";
               App.distance := 430; App.emission := 51.6; App.mode := "car";
               App.savings :=
                 Some {| Calculator.savedKg := 0;
                         Calculator.percentage := Some 0 |} |};
          App.comparisonArray := Calculator.calculateAllModes EF 430;
          App.creditsData :=
            {| App.credits := 0.0516;
               App.price := {| Calculator.min := 2.58;
                               Calculator.max := 7.74;
                               Calculator.average := 5.16 |} |} |})
  = Some {| Calculator.savedKg := 0;
            Calculator.percentage := if 0 <? 51.6 then Some 0 else None |}.
Proof.
  apply (onFormSubmit_car (JsString.js "A") (JsString.js "B") 430).
  - vm_compute. reflexivity.
  - reflexivity.
Defined.
